(** * FCDR_HIRS: uncertainty effects and their error-correlation models

    A shallow embedding of [FCDR_HIRS/effects.py]: the [Rmodel] family of
    correlation-matrix strategies, the [Effect] class with its validated
    property setters, the process-wide registry [Effect._all_effects] and its
    snapshot accessor [effects()].

    Conventions of the embedding.
    - A Python call that may raise returns a [result]: [Ok v] or [Raise e].
      A method that mutates [self] is a function from the state before to the
      state after paired with the outcome, so the state at the moment of a
      raise stays visible.
    - [float32] matrix entries are only ever the constants 0.0 and 1.0; they
      are the rationals [0] and [1].
    - Times (the [scanline_earth] and [calibration_cycle] coordinates) are
      integers, as [datetime64] counts are.
    - Attribute values are taken at the types the class docstring gives them;
      where a setter inspects its argument with [isinstance], the argument is
      a sum type with one constructor per branch. *)

From Stdlib Require Import ZArith QArith List String Ascii Lia Bool.
From stdpp Require Import base option list gmap strings.

(** ** Python exceptions and outcomes *)

Inductive exception :=
| ValueError (msg : string)
| TypeError (msg : string)
| AttributeError (msg : string)
| KeyError (key : string)
| NotImplementedError (msg : string)
| ZeroDivisionError (msg : string).

(** The built-in exception classes involved, with their method resolution
    order below [Exception]; [isinstance] is what an [except] clause tests. *)
Inductive exception_class :=
| class_Exception
| class_ValueError
| class_TypeError
| class_AttributeError
| class_LookupError
| class_KeyError
| class_RuntimeError
| class_NotImplementedError
| class_ArithmeticError
| class_ZeroDivisionError.

#[global] Instance exception_class_eq_dec : EqDecision exception_class.
Proof. solve_decision. Defined.

Definition type_of (e : exception) : exception_class :=
  match e with
  | ValueError _ => class_ValueError
  | TypeError _ => class_TypeError
  | AttributeError _ => class_AttributeError
  | KeyError _ => class_KeyError
  | NotImplementedError _ => class_NotImplementedError
  | ZeroDivisionError _ => class_ZeroDivisionError
  end.

Definition mro (c : exception_class) : list exception_class :=
  match c with
  | class_Exception => [class_Exception]
  | class_ValueError => [class_ValueError; class_Exception]
  | class_TypeError => [class_TypeError; class_Exception]
  | class_AttributeError => [class_AttributeError; class_Exception]
  | class_LookupError => [class_LookupError; class_Exception]
  | class_KeyError => [class_KeyError; class_LookupError; class_Exception]
  | class_RuntimeError => [class_RuntimeError; class_Exception]
  | class_NotImplementedError =>
      [class_NotImplementedError; class_RuntimeError; class_Exception]
  | class_ArithmeticError => [class_ArithmeticError; class_Exception]
  | class_ZeroDivisionError =>
      [class_ZeroDivisionError; class_ArithmeticError; class_Exception]
  end.

Definition isinstance (e : exception) (c : exception_class) : bool :=
  bool_decide (c ∈ mro (type_of e)).

Inductive result (A : Type) : Type :=
| Ok (a : A)
| Raise (e : exception).
Arguments Ok {A} a.
Arguments Raise {A} e.

#[global] Instance result_ret : MRet result := λ A a, Ok a.
#[global] Instance result_bind : MBind result :=
  λ A B f m, match m with Ok a => f a | Raise e => Raise e end.

(** [d[k]] on a dict with string keys. *)
Definition getitem {V : Type} (d : gmap string V) (k : string) : result V :=
  match d !! k with
  | Some v => Ok v
  | None => Raise (KeyError k)
  end.

(** ** Arrays *)

Abbreviation matrix := (list (list Q)).
Abbreviation array4 := (list (list (list (list Q)))).

(** [.astype("f4")] of a boolean. *)
Definition astype_f4 (b : bool) : Q := if b then 1%Q else 0%Q.

(** [numpy.eye(n, dtype="f4")]. *)
Definition eye (n : nat) : matrix :=
  map (λ i, map (λ j, astype_f4 (i =? j)) (seq 0 n)) (seq 0 n).

(** [numpy.ones(shape, dtype="f4")] for a four-dimensional shape. *)
Definition ones4 (n0 n1 n2 n3 : nat) : array4 :=
  replicate n0 (replicate n1 (replicate n2 (replicate n3 1%Q))).

(** [numpy.tile] repeats the whole array [reps] times along an axis. *)
Definition tile_axis {A : Type} (reps : nat) (l : list A) : list A :=
  concat (replicate reps l).

Definition tile4 (r0 r1 r2 r3 : nat) (a : array4) : array4 :=
  tile_axis r0
    (map (λ a1, tile_axis r1
       (map (λ a2, tile_axis r2 (map (tile_axis r3) a2)) a1)) a).

(** [l[::step]] for a positive [step]: [skip] elements are still to be
    passed over before the next one is kept. *)
Fixpoint stride {A : Type} (step skip : nat) (l : list A) : list A :=
  match l with
  | [] => []
  | x :: l' =>
      match skip with
      | 0 => x :: stride step (step - 1) l'
      | S k => stride step k l'
      end
  end.

Definition slice_step {A : Type} (step : nat) (l : list A) : result (list A) :=
  if step =? 0 then Raise (ValueError "slice step cannot be zero")
  else Ok (stride step 0 l).

(** [R[::s0, ::s1]]. *)
Definition slice_step2 (s0 s1 : nat) (R : matrix) : result matrix :=
  rows ← slice_step s0 R;
  if s1 =? 0 then Raise (ValueError "slice step cannot be zero")
  else Ok (map (stride s1 0) rows).

(** [math.ceil(n / s)] on sizes: the quotient of two array sizes is far
    below 2^53, where the float division followed by [ceil] is the exact
    integer ceiling. *)
Definition ceil_div (n s : nat) : result nat :=
  if s =? 0 then Raise (ZeroDivisionError "division by zero")
  else Ok ((n + s - 1) / s).

(** Entry [a[c, e, i, j]] when all four indices are in range. *)
Definition entry4 (a : array4) (c e i j : nat) : option Q :=
  row ← a !! c; m ← row !! e; r ← m !! i; r !! j.

(** ** The dataset an [Rmodel] reads

    [ds.dims[name]] and the coordinate variables [ds[name]]. *)
Record Dataset := {
  ds_dims : gmap string nat;
  ds_variables : gmap string (list Z)
}.

Definition dims (ds : Dataset) (k : string) : result nat :=
  getitem (ds_dims ds) k.

Definition variable (ds : Dataset) (k : string) : result (list Z) :=
  getitem (ds_variables ds) k.

(** [(ds["scanline_earth"] > ds["calibration_cycle"]).sum("calibration_cycle")]:
    the two coordinates broadcast against each other, and the booleans are
    summed along [calibration_cycle], one count per scanline. *)
Definition gt_sum (cc : list Z) (t : Z) : nat :=
  sum_list (map (λ c, if (c <? t)%Z then 1 else 0) cc).

(** The wording of the specification for the same quantity: how many
    calibration-cycle boundaries precede time [t]. *)
Definition boundaries_before (cc : list Z) (t : Z) : nat :=
  length (filter (λ c, (c < t)%Z) cc).

(** The shape of a four-dimensional array held as nested lists. *)
Definition has_shape4 (a : array4) (n0 n1 n2 n3 : nat) : Prop :=
  length a = n0 ∧
  Forall (λ a1, length a1 = n1 ∧
    Forall (λ a2, length a2 = n2 ∧ Forall (λ r, length r = n3) a2) a1) a.

Definition empty_dataset : Dataset := {| ds_dims := ∅; ds_variables := ∅ |}.

(** ** The [Rmodel] strategies *)

Module RModelCalib.

Definition calc_R_eΛlkx (ds : Dataset) (sampling_l sampling_e : nat)
  : result array4 :=
  n_c ← dims ds "calibrated_channel";
  n_l ← dims ds "scanline_earth";
  n_l' ← ceil_div n_l sampling_l;
  n_e ← dims ds "scanpos";
  n_e' ← ceil_div n_e sampling_e;
  n_e0 ← dims ds "scanpos";
  n_e'' ← ceil_div n_e0 sampling_e;
  Ok (ones4 n_c n_l' n_e' n_e'').

Definition calc_R_lΛekx (ds : Dataset) (sampling_l sampling_e : nat)
  : result array4 :=
  scanline_earth ← variable ds "scanline_earth";
  calibration_cycle ← variable ds "calibration_cycle";
  let ccid := map (gt_sum calibration_cycle) scanline_earth in
  let R := map (λ a, map (λ b, astype_f4 (a =? b)) ccid) ccid in
  Rs ← slice_step2 sampling_l sampling_l R;
  n_c ← dims ds "calibrated_channel";
  n_e ← dims ds "scanpos";
  n_e' ← ceil_div n_e sampling_e;
  Ok (tile4 n_c n_e' 1 1 [[Rs]]).

End RModelCalib.

Module RModelRandom.

Definition calc_R_eΛlkx (ds : Dataset) (sampling_l sampling_e : nat)
  : result array4 :=
  n_e ← dims ds "scanpos";
  n_e' ← ceil_div n_e sampling_e;
  n_c ← dims ds "calibrated_channel";
  n_l ← dims ds "scanline_earth";
  n_l' ← ceil_div n_l sampling_l;
  Ok (tile4 n_c n_l' 1 1 [[eye n_e']]).

Definition calc_R_lΛekx (ds : Dataset) (sampling_l sampling_e : nat)
  : result array4 :=
  n_l ← dims ds "scanline_earth";
  n_l' ← ceil_div n_l sampling_l;
  n_c ← dims ds "calibrated_channel";
  n_e ← dims ds "scanpos";
  n_e' ← ceil_div n_e sampling_e;
  Ok (tile4 n_c n_e' 1 1 [[eye n_l']]).

End RModelRandom.

Module RModelCommon.

Definition calc_R_eΛlkx (ds : Dataset) (sampling_l sampling_e : nat)
  : result array4 :=
  Raise (ValueError
    "We do not calculate error correlation matrices for common effects").

Definition calc_R_lΛekx := calc_R_eΛlkx.

End RModelCommon.

Module RModelPeriodicError.

Definition calc_R_eΛlkx (ds : Dataset) (sampling_l sampling_e : nat)
  : result array4 :=
  Raise (NotImplementedError "").

Definition calc_R_lΛekx (ds : Dataset) (sampling_l sampling_e : nat)
  : result array4 :=
  Raise (NotImplementedError "").

End RModelPeriodicError.

Module RModelRSelf.

Definition calc_R_eΛlkx (ds : Dataset) (sampling_l sampling_e : nat)
  : result array4 :=
  Raise (NotImplementedError "").

Definition calc_R_lΛekx (ds : Dataset) (sampling_l sampling_e : nat)
  : result array4 :=
  Raise (NotImplementedError "").

End RModelRSelf.

(** The five module-level singletons, and the dispatch an attribute access
    [rmodel.calc_R_...] performs on them. *)
Inductive Rmodel :=
| rmodel_calib
| rmodel_random
| rmodel_common
| rmodel_periodicerror
| rmodel_rself.

Definition Rmodel_calc_R_eΛlkx (m : Rmodel) :
  Dataset → nat → nat → result array4 :=
  match m with
  | rmodel_calib => RModelCalib.calc_R_eΛlkx
  | rmodel_random => RModelRandom.calc_R_eΛlkx
  | rmodel_common => RModelCommon.calc_R_eΛlkx
  | rmodel_periodicerror => RModelPeriodicError.calc_R_eΛlkx
  | rmodel_rself => RModelRSelf.calc_R_eΛlkx
  end.

Definition Rmodel_calc_R_lΛekx (m : Rmodel) :
  Dataset → nat → nat → result array4 :=
  match m with
  | rmodel_calib => RModelCalib.calc_R_lΛekx
  | rmodel_random => RModelRandom.calc_R_lΛekx
  | rmodel_common => RModelCommon.calc_R_lΛekx
  | rmodel_periodicerror => RModelPeriodicError.calc_R_lΛekx
  | rmodel_rself => RModelRSelf.calc_R_lΛekx
  end.

(** ** Methods: state and exceptions

    A method body runs against the state it mutates; a raise leaves the
    state as the statements before it made it. *)

Definition stateE (S A : Type) : Type := S → S * result A.

#[global] Instance stateE_ret (S : Type) : MRet (stateE S) :=
  λ A a s, (s, Ok a).
#[global] Instance stateE_bind (S : Type) : MBind (stateE S) :=
  λ A B f m s,
    match m s with
    | (s', Ok a) => f a s'
    | (s', Raise e) => (s', Raise e)
    end.

Definition raise {S A : Type} (e : exception) : stateE S A :=
  λ s, (s, Raise e).
Definition lift {S A : Type} (r : result A) : stateE S A := λ s, (s, r).
Definition gets {S A : Type} (f : S → A) : stateE S A := λ s, (s, Ok (f s)).
Definition modify {S : Type} (f : S → S) : stateE S () := λ s, (f s, Ok ()).

(** [for x in l: body(x)]. *)
Fixpoint for_each {S A : Type} (body : A → stateE S ()) (l : list A)
  : stateE S () :=
  match l with
  | [] => mret ()
  | x :: l' => _ ← body x; for_each body l'
  end.

(** The built-in [all] over a generator: it stops at the first false
    element, and an element whose truth value raises ends it. *)
Fixpoint py_all {A : Type} (f : A → result bool) (l : list A) : result bool :=
  match l with
  | [] => Ok true
  | x :: l' => b ← f x; if b : bool then py_all f l' else Ok false
  end.

(** ** Values an effect holds *)

(** A measurement-equation symbol ([sympy.Symbol]) and a physical unit
    ([pint]), both by their printed form. *)
Abbreviation Symbol := string.
Abbreviation Unit := string.

(** Scalar numbers as [numpy.isinf] classifies them. *)
Inductive number :=
| Finite (q : Q)
| PosInf
| NegInf
| NaN.

Definition isinf (x : number) : bool :=
  match x with
  | PosInf | NegInf => true
  | Finite _ | NaN => false
  end.

(** What may be put in a slot of a correlation scale, by the branches of
    [isinstance(x, (numbers.Number, numpy.ndarray))]: a scalar number, an array
    (its elements flattened, the first apart: an empty array is not modelled),
    or any other object. *)
Inductive scale_value :=
| Number (x : number)
| Ndarray (x : number) (xs : list number)
| NonNumeric (repr : string).

Definition is_numeric (v : scale_value) : bool :=
  match v with
  | Number _ | Ndarray _ _ => true
  | NonNumeric _ => false
  end.

(** The truth value [all] takes of [numpy.isinf(i)]: that of the one boolean
    for a scalar or a one-element array; an array of several elements has no
    truth value, and [isinf] has no loop for other objects. *)
Definition isinf_truth (v : scale_value) : result bool :=
  match v with
  | Number x => Ok (isinf x)
  | Ndarray x [] => Ok (isinf x)
  | Ndarray _ (_ :: _) =>
      Raise (ValueError
        "The truth value of an array with more than one element is ambiguous. Use a.any() or a.all()")
  | NonNumeric _ =>
      Raise (TypeError "ufunc 'isinf' not supported for the input types")
  end.

(** [CorrelationType] and [CorrelationScale]: two named tuples over the same
    four fields. *)
Record Correlation (A : Type) := mkCorrelation {
  within_scanline : A;
  between_scanlines : A;
  between_orbits : A;
  across_time : A
}.
Arguments mkCorrelation {A} _ _ _ _.
Arguments within_scanline {A} _.
Arguments between_scanlines {A} _.
Arguments between_orbits {A} _.
Arguments across_time {A} _.

Abbreviation CorrelationType := (Correlation string).
Abbreviation CorrelationScale := (Correlation scale_value).

Definition _fields : list string :=
  ["within_scanline"; "between_scanlines"; "between_orbits"; "across_time"].

(** Iterating over the tuple. *)
Definition items {A : Type} (t : Correlation A) : list A :=
  [within_scanline t; between_scanlines t; between_orbits t; across_time t].

(** A value assigned to a correlation property: already of the named-tuple
    class of that property, or any other sequence, unpacked into its
    constructor. *)
Inductive assigned (A : Type) :=
| Named (t : Correlation A)
| Sequence (xs : list A).
Arguments Named {A} t.
Arguments Sequence {A} xs.

(** [v if isinstance(v, cls) else cls( *v )]: the constructor takes exactly
    four positional arguments; the text of its [TypeError], which depends on
    how many it got, is shortened. *)
Definition coerce {A : Type} (cls : string) (v : assigned A)
  : result (Correlation A) :=
  match v with
  | Named t => Ok t
  | Sequence [a; b; c; d] => Ok (mkCorrelation a b c d)
  | Sequence _ =>
      Raise (TypeError (cls +:+ ".__new__() takes 4 positional arguments"))
  end.

(** [xarray.DataArray], as far as the magnitude setter touches it. *)
Inductive attr_value :=
| AttrNone
| AttrText (s : string)
| AttrUnit (u : Unit)
| AttrScale (v : scale_value)
| AttrMatrix (m : matrix).

Record DataArray := {
  da_values : list number;
  da_name : option string;
  da_attrs : gmap string attr_value;
  da_encoding : gmap string string
}.

(** [xarray.DataArray(x)] of a bare value. *)
Definition DataArray_of (x : number) : DataArray :=
  {| da_values := [x]; da_name := None; da_attrs := ∅; da_encoding := ∅ |}.

(** What may be assigned to [magnitude]: a [DataArray], a quantity carrying
    its unit in [.u], or a plain number. *)
Inductive magnitude_value :=
| OfDataArray (da : DataArray)
| OfQuantity (x : number) (u : Unit)
| OfNumber (x : number).

(** [d.setdefault(k, v)]. *)
Definition setdefault {V : Type} (k : string) (v : V) (d : gmap string V)
  : gmap string V :=
  match d !! k with
  | Some _ => d
  | None => <[k := v]> d
  end.

Definition text_attr (s : option string) : attr_value :=
  match s with Some s => AttrText s | None => AttrNone end.

Definition matrix_attr (m : option matrix) : attr_value :=
  match m with Some m => AttrMatrix m | None => AttrNone end.

(** [str(x)] of a symbol or [None]. *)
Definition str (x : option Symbol) : string :=
  match x with Some s => s | None => "None" end.

(** ["{:s}".format(x)] of a string or [None]. *)
Definition format_s (x : option string) : result string :=
  match x with
  | Some s => Ok s
  | None =>
      Raise (TypeError "unsupported format string passed to NoneType.__format__")
  end.

Definition WARNING : string :=
  "VERY EARLY TRIAL VERSION! " +:+
  "DO NOT USE THE CONTENTS OF THIS PRODUCT FOR ANY PURPOSE UNDER ANY CIRCUMSTANCES! " +:+
  "This serves exclusively as a file format demonstration!".

(** ** External collaborators

    The module [_fcdr_defs] is not part of the sources at hand; its two tables
    are parameters. Of a tuple held by [FCDR_data_vars_props] only component
    [3], a dict of encoding settings, is read. *)
Class fcdr_defs := {
  var_props : Type;
  var_props_3 : var_props → gmap string string;
  FCDR_data_vars_props : gmap string var_props;
  FCDR_uncertainty_encodings : gmap string (gmap string string)
}.

(** [measurement_equation.calc_sensitivity_coefficient], a pure query; the
    expression it returns is kept in printed form. *)
Class measurement_equation := {
  calc_sensitivity_coefficient : string → option Symbol → string
}.

(** ** The class [Effect] *)

Module Effect.

(** The attributes of an instance, at the class's defaults until assigned. *)
Record t := {
  name : option string;
  description : option string;
  parameter : option Symbol;
  unit : option Unit;
  pdf_shape : string;
  channels_affected : string;
  channel_correlations : option matrix;
  dimensions : option (list string);
  rmodel : option Rmodel;
  _magnitude : option DataArray;
  _corr_type : CorrelationType;
  _corr_scale : CorrelationScale
}.

Definition class_defaults : t := {|
  name := None;
  description := None;
  parameter := None;
  unit := None;
  pdf_shape := "Gaussian";
  channels_affected := "all";
  channel_correlations := None;
  dimensions := None;
  rmodel := None;
  _magnitude := None;
  _corr_type := mkCorrelation "undefined" "undefined" "undefined" "undefined";
  _corr_scale :=
    mkCorrelation (Number (Finite 0)) (Number (Finite 0))
                  (Number (Finite 0)) (Number (Finite 0))
|}.

Definition _valid_correlation_types : list string :=
  ["undefined"; "random"; "rectangular_absolute"; "triangular_relative";
   "truncated_gaussian_relative"; "repeated_rectangles";
   "repeated_truncated_gaussians"].

(** Assignment to one attribute slot; every other slot keeps its value. *)
Definition with_name (v : option string) (e : t) : t :=
  {| name := v; description := description e; parameter := parameter e;
     unit := unit e; pdf_shape := pdf_shape e;
     channels_affected := channels_affected e;
     channel_correlations := channel_correlations e;
     dimensions := dimensions e; rmodel := rmodel e;
     _magnitude := _magnitude e; _corr_type := _corr_type e;
     _corr_scale := _corr_scale e |}.

Definition with_description (v : option string) (e : t) : t :=
  {| name := name e; description := v; parameter := parameter e;
     unit := unit e; pdf_shape := pdf_shape e;
     channels_affected := channels_affected e;
     channel_correlations := channel_correlations e;
     dimensions := dimensions e; rmodel := rmodel e;
     _magnitude := _magnitude e; _corr_type := _corr_type e;
     _corr_scale := _corr_scale e |}.

Definition with_parameter (v : option Symbol) (e : t) : t :=
  {| name := name e; description := description e; parameter := v;
     unit := unit e; pdf_shape := pdf_shape e;
     channels_affected := channels_affected e;
     channel_correlations := channel_correlations e;
     dimensions := dimensions e; rmodel := rmodel e;
     _magnitude := _magnitude e; _corr_type := _corr_type e;
     _corr_scale := _corr_scale e |}.

Definition with_unit (v : option Unit) (e : t) : t :=
  {| name := name e; description := description e; parameter := parameter e;
     unit := v; pdf_shape := pdf_shape e;
     channels_affected := channels_affected e;
     channel_correlations := channel_correlations e;
     dimensions := dimensions e; rmodel := rmodel e;
     _magnitude := _magnitude e; _corr_type := _corr_type e;
     _corr_scale := _corr_scale e |}.

Definition with_pdf_shape (v : string) (e : t) : t :=
  {| name := name e; description := description e; parameter := parameter e;
     unit := unit e; pdf_shape := v;
     channels_affected := channels_affected e;
     channel_correlations := channel_correlations e;
     dimensions := dimensions e; rmodel := rmodel e;
     _magnitude := _magnitude e; _corr_type := _corr_type e;
     _corr_scale := _corr_scale e |}.

Definition with_channels_affected (v : string) (e : t) : t :=
  {| name := name e; description := description e; parameter := parameter e;
     unit := unit e; pdf_shape := pdf_shape e;
     channels_affected := v;
     channel_correlations := channel_correlations e;
     dimensions := dimensions e; rmodel := rmodel e;
     _magnitude := _magnitude e; _corr_type := _corr_type e;
     _corr_scale := _corr_scale e |}.

Definition with_channel_correlations (v : option matrix) (e : t) : t :=
  {| name := name e; description := description e; parameter := parameter e;
     unit := unit e; pdf_shape := pdf_shape e;
     channels_affected := channels_affected e;
     channel_correlations := v;
     dimensions := dimensions e; rmodel := rmodel e;
     _magnitude := _magnitude e; _corr_type := _corr_type e;
     _corr_scale := _corr_scale e |}.

Definition with_dimensions (v : option (list string)) (e : t) : t :=
  {| name := name e; description := description e; parameter := parameter e;
     unit := unit e; pdf_shape := pdf_shape e;
     channels_affected := channels_affected e;
     channel_correlations := channel_correlations e;
     dimensions := v; rmodel := rmodel e;
     _magnitude := _magnitude e; _corr_type := _corr_type e;
     _corr_scale := _corr_scale e |}.

Definition with_rmodel (v : option Rmodel) (e : t) : t :=
  {| name := name e; description := description e; parameter := parameter e;
     unit := unit e; pdf_shape := pdf_shape e;
     channels_affected := channels_affected e;
     channel_correlations := channel_correlations e;
     dimensions := dimensions e; rmodel := v;
     _magnitude := _magnitude e; _corr_type := _corr_type e;
     _corr_scale := _corr_scale e |}.

Definition with__magnitude (v : option DataArray) (e : t) : t :=
  {| name := name e; description := description e; parameter := parameter e;
     unit := unit e; pdf_shape := pdf_shape e;
     channels_affected := channels_affected e;
     channel_correlations := channel_correlations e;
     dimensions := dimensions e; rmodel := rmodel e;
     _magnitude := v; _corr_type := _corr_type e;
     _corr_scale := _corr_scale e |}.

Definition with__corr_type (v : CorrelationType) (e : t) : t :=
  {| name := name e; description := description e; parameter := parameter e;
     unit := unit e; pdf_shape := pdf_shape e;
     channels_affected := channels_affected e;
     channel_correlations := channel_correlations e;
     dimensions := dimensions e; rmodel := rmodel e;
     _magnitude := _magnitude e; _corr_type := v;
     _corr_scale := _corr_scale e |}.

Definition with__corr_scale (v : CorrelationScale) (e : t) : t :=
  {| name := name e; description := description e; parameter := parameter e;
     unit := unit e; pdf_shape := pdf_shape e;
     channels_affected := channels_affected e;
     channel_correlations := channel_correlations e;
     dimensions := dimensions e; rmodel := rmodel e;
     _magnitude := _magnitude e; _corr_type := _corr_type e;
     _corr_scale := v |}.

(** A method of an instance. *)
Definition method (A : Type) : Type := stateE t A.

(** *** Property getters *)

Definition magnitude (self : t) : option DataArray := _magnitude self.
Definition correlation_type (self : t) : CorrelationType := _corr_type self.
Definition correlation_scale (self : t) : CorrelationScale := _corr_scale self.

(** *** Correlation setters *)

Definition unknown_correlation_type (x : string) : exception :=
  ValueError ("Unknown correlation type: " +:+ x +:+ ". Expected one of: " +:+
              String.concat ", " _valid_correlation_types).

Definition correlation_type_setter (v : assigned string) : method () :=
  v ← lift (coerce "CorrelationType" v);
  _ ← for_each (λ x,
         if bool_decide (x ∈ _valid_correlation_types) then mret ()
         else raise (unknown_correlation_type x)) (items v);
  modify (with__corr_type v).

(** The message of the [TypeError] is itself built with ["{:s}".format] of a
    type object, which raises [TypeError] before the intended one is made. *)
Definition correlation_scale_setter (v : assigned scale_value) : method () :=
  v ← lift (coerce "CorrelationScale" v);
  _ ← for_each (λ x,
         if is_numeric x then mret ()
         else raise (TypeError
                "unsupported format string passed to type.__format__"))
       (items v);
  modify (with__corr_scale v).

(** *** Classification *)

Definition is_independent (self : t) : bool :=
  forallb (λ x, String.eqb x "random") (items (correlation_type self)).

Definition is_common (self : t) : result bool :=
  if forallb (λ x, String.eqb x "rectangular_absolute")
       (items (correlation_type self))
  then py_all isinf_truth (items (correlation_scale self))
  else Ok false.

Definition is_structured (self : t) : result bool :=
  if negb (is_independent self)
  then c ← is_common self; Ok (negb c)
  else Ok false.

(** *** Correlation matrices *)

Definition calc_R_eΛlkx (self : t) (ds : Dataset) (sampling_l sampling_e : nat)
  : result array4 :=
  match rmodel self with
  | Some m => Rmodel_calc_R_eΛlkx m ds sampling_l sampling_e
  | None =>
      Raise (AttributeError "'NoneType' object has no attribute 'calc_R_eΛlkx'")
  end.

Definition calc_R_lΛekx (self : t) (ds : Dataset) (sampling_l sampling_e : nat)
  : result array4 :=
  match rmodel self with
  | Some m => Rmodel_calc_R_lΛekx m ds sampling_l sampling_e
  | None =>
      Raise (AttributeError "'NoneType' object has no attribute 'calc_R_lΛekx'")
  end.

Definition calc_R_cΛpx (self : t) : result array4 :=
  Raise (NotImplementedError "Not implemented").

(** *** Attributes and keyword arguments *)

(** What [getattr(self.__class__, k)] finds: the names bound in the class
    body, properties told apart, and the names every class inherits from
    [object]. *)
Inductive attribute_kind := Plain | Property.

Definition class_attributes : list (string * attribute_kind) :=
  [("_all_effects", Plain); ("name", Plain); ("description", Plain);
   ("parameter", Plain); ("unit", Plain); ("pdf_shape", Plain);
   ("channels_affected", Plain); ("channel_correlations", Plain);
   ("dimensions", Plain); ("rmodel", Plain);
   ("__init__", Plain); ("__setattr__", Plain); ("__repr__", Plain);
   ("_magnitude", Plain); ("magnitude", Property);
   ("_corr_type", Plain); ("_valid_correlation_types", Plain);
   ("correlation_type", Property);
   ("_corr_scale", Plain); ("correlation_scale", Property);
   ("sensitivity", Plain); ("is_independent", Plain); ("is_common", Plain);
   ("is_structured", Plain);
   ("calc_R_eΛlkx", Plain); ("calc_R_lΛekx", Plain); ("calc_R_cΛpx", Plain);
   ("__class__", Plain); ("__doc__", Plain); ("__module__", Plain);
   ("__dict__", Plain); ("__weakref__", Plain); ("__new__", Plain);
   ("__str__", Plain); ("__eq__", Plain); ("__ne__", Plain);
   ("__lt__", Plain); ("__le__", Plain); ("__gt__", Plain); ("__ge__", Plain);
   ("__hash__", Plain); ("__format__", Plain); ("__getattribute__", Plain);
   ("__delattr__", Plain); ("__dir__", Plain); ("__sizeof__", Plain);
   ("__reduce__", Plain); ("__reduce_ex__", Plain);
   ("__init_subclass__", Plain); ("__subclasshook__", Plain)].

Definition class_getattr (k : string) : option attribute_kind :=
  (list_to_map class_attributes : gmap string attribute_kind) !! k.

(** [hasattr(self, k)]: an instance has the attributes of its class, and
    [__setattr__] lets it have no others. *)
Definition hasattr (k : string) : bool :=
  bool_decide (is_Some (class_getattr k)).

(** A keyword argument: one of the documented attributes with a value of its
    type, or a keyword that names no attribute of the class. *)
Inductive kwarg :=
| kw_name (v : option string)
| kw_description (v : option string)
| kw_parameter (v : option Symbol)
| kw_unit (v : option Unit)
| kw_pdf_shape (v : string)
| kw_channels_affected (v : string)
| kw_channel_correlations (v : option matrix)
| kw_dimensions (v : option (list string))
| kw_rmodel (v : option Rmodel)
| kw_magnitude (v : magnitude_value)
| kw_correlation_type (v : assigned string)
| kw_correlation_scale (v : assigned scale_value)
| kw_other (k : string) (unknown : class_getattr k = None).

Definition key (kw : kwarg) : string :=
  match kw with
  | kw_name _ => "name"
  | kw_description _ => "description"
  | kw_parameter _ => "parameter"
  | kw_unit _ => "unit"
  | kw_pdf_shape _ => "pdf_shape"
  | kw_channels_affected _ => "channels_affected"
  | kw_channel_correlations _ => "channel_correlations"
  | kw_dimensions _ => "dimensions"
  | kw_rmodel _ => "rmodel"
  | kw_magnitude _ => "magnitude"
  | kw_correlation_type _ => "correlation_type"
  | kw_correlation_scale _ => "correlation_scale"
  | kw_other k _ => k
  end.

Section WithCollaborators.

Context `{!fcdr_defs} `{!measurement_equation}.

Definition sensitivity (self : t) (s : string) : string :=
  calc_sensitivity_coefficient s (parameter self).

(** *** The magnitude setter *)

(** Lines 221 to 229: wrap what is no [DataArray] yet, keeping its unit. *)
Definition as_DataArray (da : magnitude_value) : DataArray :=
  match da with
  | OfDataArray da => da
  | OfQuantity x u =>
      let da := DataArray_of x in
      {| da_values := da_values da; da_name := da_name da;
         da_attrs := setdefault "units" (AttrUnit u) (da_attrs da);
         da_encoding := da_encoding da |}
  | OfNumber x => DataArray_of x
  end.

(** One turn of the loop over [self.correlation_type._asdict().items()]. *)
Definition stamp_axis (attrs : gmap string attr_value)
    (kv : string * (string * scale_value)) : gmap string attr_value :=
  <["correlation_scale_" +:+ kv.1 := AttrScale kv.2.2]>
    (<["correlation_type_" +:+ kv.1 := AttrText kv.2.1]> attrs).

(** The body of the setter up to the final assignment: the array that is
    about to be stored. *)
Definition stamped (self : t) (v : magnitude_value) : result DataArray :=
  let da := as_DataArray v in
  da_name' ← match da_name da with
             | None => n ← format_s (name self); Ok (Some ("u_" +:+ n))
             | Some n => Ok (Some n)
             end;
  let attrs := setdefault "long_name" (text_attr (description self))
                 (da_attrs da) in
  let attrs := <["short_name" := text_attr (name self)]> attrs in
  let attrs := <["parameter" := AttrText (str (parameter self))]> attrs in
  let attrs := <["pdf_shape" := AttrText (pdf_shape self)]> attrs in
  let attrs := <["channels_affected" := AttrText (channels_affected self)]>
                 attrs in
  let attrs := foldl stamp_axis attrs
                 (zip _fields (zip (items (correlation_type self))
                                   (items (correlation_scale self)))) in
  let attrs := <["channel_correlations" :=
                   matrix_attr (channel_correlations self)]> attrs in
  let attrs := <["sensitivity_coefficient" :=
                   AttrText (sensitivity self "R_e")]> attrs in
  let attrs := <["WARNING" := AttrText WARNING]> attrs in
  n ← match name self with
      | Some n => Ok n
      | None =>
          Raise (AttributeError
            "'NoneType' object has no attribute 'startswith'")
      end;
  encoding ←
    (if negb (String.prefix "O_" n)
        || bool_decide (is_Some (FCDR_data_vars_props !! n))
     then p ← getitem FCDR_data_vars_props n;
          Ok (var_props_3 p ∪ da_encoding da)
     else Ok (da_encoding da));
  let encoding := default ∅ (FCDR_uncertainty_encodings !! n) ∪ encoding in
  Ok {| da_values := da_values da; da_name := da_name';
        da_attrs := attrs; da_encoding := encoding |}.

Definition magnitude_setter (v : magnitude_value) : method () :=
  self ← gets id;
  da ← lift (stamped self v);
  modify (with__magnitude (Some da)).

(** *** Construction *)

(** [object.__setattr__]: a property runs its setter, another attribute is
    stored on the instance. A keyword that names no attribute never gets
    here. *)
Definition object__setattr__ (kw : kwarg) : method () :=
  match kw with
  | kw_name v => modify (with_name v)
  | kw_description v => modify (with_description v)
  | kw_parameter v => modify (with_parameter v)
  | kw_unit v => modify (with_unit v)
  | kw_pdf_shape v => modify (with_pdf_shape v)
  | kw_channels_affected v => modify (with_channels_affected v)
  | kw_channel_correlations v => modify (with_channel_correlations v)
  | kw_dimensions v => modify (with_dimensions v)
  | kw_rmodel v => modify (with_rmodel v)
  | kw_magnitude v => magnitude_setter v
  | kw_correlation_type v => correlation_type_setter v
  | kw_correlation_scale v => correlation_scale_setter v
  | kw_other _ _ => mret ()
  end.

Definition __setattr__ (kw : kwarg) : method () :=
  if hasattr (key kw) then object__setattr__ kw
  else raise (AttributeError ("Unknown attribute: " +:+ key kw)).

(** The first loop of [__init__] over the keywords as [popitem] hands them
    out, properties put aside in [later_pairs]. *)
Fixpoint init_plain (popped later_pairs : list kwarg) : method (list kwarg) :=
  match popped with
  | [] => mret later_pairs
  | kw :: popped' =>
      match class_getattr (key kw) with
      | None =>
          raise (AttributeError
            ("type object 'Effect' has no attribute '" +:+ key kw +:+ "'"))
      | Some Property => init_plain popped' (later_pairs ++ [kw])
      | Some Plain => _ ← __setattr__ kw; init_plain popped' later_pairs
      end
  end.

(** [__init__] up to the registration: [popitem] takes the keywords from the
    last one, [later_pairs.pop()] the deferred ones from the last one. *)
Definition init_attributes (kwargs : list kwarg) : method () :=
  later_pairs ← init_plain (reverse kwargs) [];
  for_each __setattr__ (reverse later_pairs).

End WithCollaborators.

End Effect.

(** ** The process state: objects, the registry, construction, snapshots

    Objects live in one arena per class and are referred to by their index
    there; two references are the same object exactly when they are the same
    index. A [dict] is the list of its items in insertion order, a [set] the
    list of its members; instances of [Effect] hash by identity, so a set of
    effects holds references. *)

Abbreviation ref := nat.

Section Containers.

Context {K V : Type} `{EqDecision K}.

(** [d.get(k)]. *)
Fixpoint dict_get (k : K) (d : list (K * V)) : option V :=
  match d with
  | [] => None
  | (k', v) :: d' => if decide (k' = k) then Some v else dict_get k d'
  end.

(** [d[k] = v]. *)
Fixpoint dict_set (k : K) (v : V) (d : list (K * V)) : list (K * V) :=
  match d with
  | [] => [(k, v)]
  | (k', v') :: d' =>
      if decide (k' = k) then (k, v) :: d' else (k', v') :: dict_set k v d'
  end.

(** [d.pop(k, None)]. *)
Definition dict_del (k : K) (d : list (K * V)) : list (K * V) :=
  filter (λ kv, kv.1 ≠ k) d.

(** [s.add(x)] and [s.discard(x)]. *)
Definition set_add (x : K) (s : list K) : list K :=
  if decide (x ∈ s) then s else s ++ [x].

Definition set_discard (x : K) (s : list K) : list K :=
  filter (λ y, y ≠ x) s.

End Containers.

Record World := {
  effect_objects : list Effect.t;
  set_objects : list (list ref);
  dict_objects : list (list (option Symbol * ref));
  _all_effects : ref
}.

(** The state when the class body of [Effect] has run: [_all_effects = {}]. *)
Definition World_initial : World := {|
  effect_objects := [];
  set_objects := [];
  dict_objects := [[]];
  _all_effects := 0
|}.

Definition with_effect_objects (l : list Effect.t) (w : World) : World :=
  {| effect_objects := l; set_objects := set_objects w;
     dict_objects := dict_objects w; _all_effects := _all_effects w |}.

Definition with_set_objects (l : list (list ref)) (w : World) : World :=
  {| effect_objects := effect_objects w; set_objects := l;
     dict_objects := dict_objects w; _all_effects := _all_effects w |}.

Definition with_dict_objects (l : list (list (option Symbol * ref)))
    (w : World) : World :=
  {| effect_objects := effect_objects w; set_objects := set_objects w;
     dict_objects := l; _all_effects := _all_effects w |}.

(** No reference dangles. A function on the state returns [None] where it
    would follow a reference to no object, which no state with this property
    makes it do. *)
Definition well_formed (w : World) : Prop :=
  _all_effects w < length (dict_objects w) ∧
  Forall (Forall (λ kv, kv.2 < length (set_objects w))) (dict_objects w) ∧
  Forall (Forall (λ a, a < length (effect_objects w))) (set_objects w).

#[global] Instance well_formed_dec (w : World) : Decision (well_formed w).
Proof. unfold well_formed. apply _. Defined.

(** What a dict of sets of effects shows to a reader: per key, the effects. *)
Definition set_view (w : World) (s : ref) : option (list Effect.t) :=
  members ← set_objects w !! s;
  mapM (λ a, effect_objects w !! a) members.

Definition item_view (w : World) (kv : option Symbol * ref)
  : option (option Symbol * list Effect.t) :=
  es ← set_view w kv.2; Some (kv.1, es).

Definition dict_view (w : World) (d : ref)
  : option (list (option Symbol * list Effect.t)) :=
  entries ← dict_objects w !! d;
  mapM (item_view w) entries.

Section Construction.

Context `{!fcdr_defs} `{!measurement_equation}.

(** The last three lines of [__init__]. *)
Definition register (self : ref) (w : World) : option World :=
  e ← effect_objects w !! self;
  d ← dict_objects w !! _all_effects w;
  let k := Effect.parameter e in
  let w1 :=
    if bool_decide (is_Some (dict_get k d)) then w
    else with_dict_objects
           (<[_all_effects w := dict_set k (length (set_objects w)) d]>
              (dict_objects w))
           (with_set_objects (set_objects w ++ [[]]) w) in
  d1 ← dict_objects w1 !! _all_effects w1;
  s ← dict_get k d1;
  members ← set_objects w1 !! s;
  Some (with_set_objects (<[s := set_add self members]> (set_objects w1)) w1).

(** [Effect.__init__] on the instance [self]. *)
Definition Effect__init__ (self : ref) (kwargs : list Effect.kwarg)
    (w : World) : option (World * result ()) :=
  e ← effect_objects w !! self;
  match Effect.init_attributes kwargs e with
  | (e', Raise x) =>
      Some (with_effect_objects (<[self := e']> (effect_objects w)) w, Raise x)
  | (e', Ok _) =>
      w' ← register self
             (with_effect_objects (<[self := e']> (effect_objects w)) w);
      Some (w', Ok ())
  end.

(** A call of the class [Effect]: a new instance, all attributes at the class's
    defaults, then [__init__] on it. *)
Definition Effect_new (kwargs : list Effect.kwarg) (w : World)
  : option (World * result ref) :=
  let self := length (effect_objects w) in
  wr ← Effect__init__ self kwargs
         (with_effect_objects (effect_objects w ++ [Effect.class_defaults]) w);
  Some (wr.1, match wr.2 with Ok _ => Ok self | Raise x => Raise x end).

End Construction.

(** *** [copy.deepcopy] of a dict of sets of effects

    The memo maps an original, by identity, to its copy, so an object reached
    twice is copied once. A key is a symbol, which is immutable. *)
Record Memo := {
  memo_effects : gmap ref ref;
  memo_sets : gmap ref ref
}.

Definition deepcopy_effect (a : ref) (st : World * Memo)
  : option (World * Memo * ref) :=
  match memo_effects st.2 !! a with
  | Some a' => Some (st, a')
  | None =>
      e ← effect_objects st.1 !! a;
      let a' := length (effect_objects st.1) in
      Some (with_effect_objects (effect_objects st.1 ++ [e]) st.1,
            {| memo_effects := <[a := a']> (memo_effects st.2);
               memo_sets := memo_sets st.2 |},
            a')
  end.

Fixpoint deepcopy_members (members : list ref) (st : World * Memo)
  : option (World * Memo * list ref) :=
  match members with
  | [] => Some (st, [])
  | a :: members' =>
      r ← deepcopy_effect a st;
      r' ← deepcopy_members members' r.1;
      Some (r'.1, r.2 :: r'.2)
  end.

(** The copy of a set is the set of the copies of its members, which are as
    distinct as the members are. *)
Definition deepcopy_set (s : ref) (st : World * Memo)
  : option (World * Memo * ref) :=
  match memo_sets st.2 !! s with
  | Some s' => Some (st, s')
  | None =>
      members ← set_objects st.1 !! s;
      r ← deepcopy_members members st;
      let s' := length (set_objects r.1.1) in
      Some (with_set_objects (set_objects r.1.1 ++ [r.2]) r.1.1,
            {| memo_effects := memo_effects r.1.2;
               memo_sets := <[s := s']> (memo_sets r.1.2) |},
            s')
  end.

Fixpoint deepcopy_items (entries : list (option Symbol * ref))
    (st : World * Memo) : option (World * Memo * list (option Symbol * ref)) :=
  match entries with
  | [] => Some (st, [])
  | (k, s) :: entries' =>
      r ← deepcopy_set s st;
      r' ← deepcopy_items entries' r.1;
      Some (r'.1, (k, r.2) :: r'.2)
  end.

(** The new dict exists, empty, before its items are copied, and receives
    them in order under their distinct keys. *)
Definition deepcopy_dict (d : ref) (w : World) : option (World * ref) :=
  entries ← dict_objects w !! d;
  let d' := length (dict_objects w) in
  r ← deepcopy_items entries
        (with_dict_objects (dict_objects w ++ [[]]) w,
         {| memo_effects := ∅; memo_sets := ∅ |});
  Some (with_dict_objects (<[d' := r.2]> (dict_objects r.1.1)) r.1.1, d').

(** [effects()]. *)
Definition effects (w : World) : option (World * ref) :=
  deepcopy_dict (_all_effects w) w.

(** *** What a caller may do to a mapping it holds: add and remove entries *)
Inductive mutation :=
| dict_setitem (d : ref) (k : option Symbol) (s : ref)
| dict_setitem_new_set (d : ref) (k : option Symbol)
| dict_delitem (d : ref) (k : option Symbol)
| set_add_member (s : ref) (a : ref)
| set_discard_member (s : ref) (a : ref).

Definition mutate (m : mutation) (w : World) : option World :=
  match m with
  | dict_setitem d k s =>
      entries ← dict_objects w !! d;
      _ ← set_objects w !! s;
      Some (with_dict_objects (<[d := dict_set k s entries]> (dict_objects w)) w)
  | dict_setitem_new_set d k =>
      entries ← dict_objects w !! d;
      Some (with_dict_objects
              (<[d := dict_set k (length (set_objects w)) entries]>
                 (dict_objects w))
              (with_set_objects (set_objects w ++ [[]]) w))
  | dict_delitem d k =>
      entries ← dict_objects w !! d;
      Some (with_dict_objects (<[d := dict_del k entries]> (dict_objects w)) w)
  | set_add_member s a =>
      members ← set_objects w !! s;
      _ ← effect_objects w !! a;
      Some (with_set_objects (<[s := set_add a members]> (set_objects w)) w)
  | set_discard_member s a =>
      members ← set_objects w !! s;
      Some (with_set_objects (<[s := set_discard a members]> (set_objects w)) w)
  end.

Fixpoint mutate_all (ms : list mutation) (w : World) : option World :=
  match ms with
  | [] => Some w
  | m :: ms' => w' ← mutate m w; mutate_all ms' w'
  end.

(** The container a mutation writes to was created after the state [w]: it
    belongs to a snapshot taken of [w], not to [w]. *)
Definition writes_outside (w : World) (m : mutation) : Prop :=
  match m with
  | dict_setitem d _ _ | dict_setitem_new_set d _ | dict_delitem d _ =>
      length (dict_objects w) ≤ d
  | set_add_member s _ | set_discard_member s _ =>
      length (set_objects w) ≤ s
  end.

#[global] Instance writes_outside_dec (w : World) (m : mutation) :
  Decision (writes_outside w m).
Proof. destruct m; simpl; apply _. Defined.

(** ** Statements about the process state *)

(** A list grows: what it holds, it keeps at the same index. *)
Definition grows {A : Type} (l l' : list A) : Prop :=
  ∀ i x, l !! i = Some x → l' !! i = Some x.

(** Every object of [w] is in [w'], at its place and as it was. *)
Definition preserves (w w' : World) : Prop :=
  grows (effect_objects w) (effect_objects w') ∧
  grows (set_objects w) (set_objects w') ∧
  grows (dict_objects w) (dict_objects w') ∧
  _all_effects w' = _all_effects w.

(** The effect at [self] is a member of the registry's set for its
    parameter. *)
Definition registered (w : World) (self : ref) : Prop :=
  ∃ e d s members,
    effect_objects w !! self = Some e ∧
    dict_objects w !! _all_effects w = Some d ∧
    dict_get (Effect.parameter e) d = Some s ∧
    set_objects w !! s = Some members ∧
    self ∈ members.

(** The registry of [w'] is that of [w]: the same dict, the same sets, the
    same view for a reader. *)
Definition registry_untouched (w w' : World) : Prop :=
  _all_effects w' = _all_effects w ∧
  dict_objects w' = dict_objects w ∧
  set_objects w' = set_objects w ∧
  dict_view w' (_all_effects w') = dict_view w (_all_effects w).

(** The slots of a value assigned to a correlation property. *)
Definition slots {A : Type} (v : assigned A) : list A :=
  match v with Named t => items t | Sequence xs => xs end.

(** A keyword argument whose assignment raises: a name the class has no
    attribute for, a correlation type with a slot outside the vocabulary, a
    correlation scale with a slot that is not numeric. *)
Definition rejected (kw : Effect.kwarg) : Prop :=
  match kw with
  | Effect.kw_other _ _ => True
  | Effect.kw_correlation_type v =>
      Exists (λ x, x ∉ Effect._valid_correlation_types) (slots v)
  | Effect.kw_correlation_scale v =>
      Exists (λ x, is_numeric x = false) (slots v)
  | _ => False
  end.

(** The method raises from state [s]. *)
Definition raises {S A : Type} (m : stateE S A) (s : S) : Prop :=
  ∃ s' e, m s = (s', Raise e).

(** The memo of a copy under way from [w0]: every original it knows has its
    copy in place, created after [w0]. *)
Definition copies_ok (w0 w : World) (m : Memo) : Prop :=
  preserves w0 w ∧
  (∀ a a', memo_effects m !! a = Some a' →
     length (effect_objects w0) ≤ a' ∧
     ∃ e, effect_objects w0 !! a = Some e ∧ effect_objects w !! a' = Some e) ∧
  (∀ s s', memo_sets m !! s = Some s' →
     length (set_objects w0) ≤ s' ∧
     (∃ members', set_objects w !! s' = Some members' ∧
        Forall (λ a, length (effect_objects w0) ≤ a) members') ∧
     ∃ es, set_view w0 s = Some es ∧ set_view w s' = Some es).

(** A set of the snapshot and its members were created after [w0]. *)
Definition fresh_set (w0 w : World) (s : ref) : Prop :=
  length (set_objects w0) ≤ s ∧
  ∃ members, set_objects w !! s = Some members ∧
    Forall (λ a, length (effect_objects w0) ≤ a) members.

(** The dict [snapshot] was created after [w], and so were its sets and their
    members: it shares no container and no effect with [w]. *)
Definition snapshot_is_deep (w w1 : World) (snapshot : ref) : Prop :=
  length (dict_objects w) ≤ snapshot ∧
  ∃ entries, dict_objects w1 !! snapshot = Some entries ∧
    Forall (λ kv : option Symbol * ref, fresh_set w w1 kv.2) entries.

(** ** Statements of the specification about a single effect *)

(** All four axes of the correlation type are [s]. *)
Definition axes_all (self : Effect.t) (s : string) : Prop :=
  Forall (λ x, x = s) (items (Effect.correlation_type self)).

(** A correlation-scale value is infinite: a scalar that is, or an array
    whose elements all are. *)
Definition infinite (v : scale_value) : Prop :=
  match v with
  | Number x => isinf x = true
  | Ndarray x xs => Forall (λ y, isinf y = true) (x :: xs)
  | NonNumeric _ => False
  end.

Definition scales_all_infinite (self : Effect.t) : Prop :=
  Forall infinite (items (Effect.correlation_scale self)).

(** [is_common()] returns a boolean, true exactly for an effect with four
    rectangular axes of infinite scale. *)
Definition is_common_as_specified (self : Effect.t) : Prop :=
  ∃ b : bool, Effect.is_common self = Ok b ∧
    (b = true ↔ axes_all self "rectangular_absolute" ∧ scales_all_infinite self).

Definition scalar (v : scale_value) : Prop :=
  match v with Number _ => True | _ => False end.

(** The first slot of a tuple that is outside the vocabulary. *)
Definition first_unknown (v : CorrelationType) : option string :=
  find (λ x, negb (bool_decide (x ∈ Effect._valid_correlation_types))) (items v).

(** Assigning [v], either form of the four slots [t], to [correlation_type]
    of [self]: with every slot in the vocabulary the stored tuple becomes [t]
    and nothing else changes; otherwise [ValueError] names the first unknown
    slot and lists the vocabulary, and [self] is as it was. *)
Definition correlation_type_assignment
    (self : Effect.t) (t : CorrelationType) (v : assigned string) : Prop :=
  match first_unknown t with
  | None =>
      Effect.correlation_type_setter v self = (Effect.with__corr_type t self, Ok ())
  | Some x =>
      Effect.correlation_type_setter v self =
        (self, Raise (ValueError
           ("Unknown correlation type: " +:+ x +:+ ". Expected one of: " +:+
            "undefined, random, rectangular_absolute, triangular_relative, " +:+
            "truncated_gaussian_relative, repeated_rectangles, " +:+
            "repeated_truncated_gaussians")))
  end.

(** The magnitude assignment completes and stores [da]. *)
Definition stores_magnitude `{!fcdr_defs} `{!measurement_equation}
    (self : Effect.t) (v : magnitude_value) (da : DataArray) : Prop :=
  Effect.magnitude_setter v self = (Effect.with__magnitude (Some da) self, Ok ()).

(** The specification's reading of a missing export encoding: an effect
    whose name neither registry knows is assigned its magnitude without an
    error. *)
Definition tolerates_missing_encoding `{!fcdr_defs} `{!measurement_equation}
    (self : Effect.t) (v : magnitude_value) : Prop :=
  ∀ n, Effect.name self = Some n →
    FCDR_data_vars_props !! n = None →
    FCDR_uncertainty_encodings !! n = None →
    ∃ self', Effect.magnitude_setter v self = (self', Ok ()).

(** Assigning the plain number [x] stores an array without a [units]
    attribute, named ["u_"] followed by the name of the effect. *)
Definition plain_number_magnitude `{!fcdr_defs} `{!measurement_equation}
    (self : Effect.t) (x : number) : Prop :=
  ∃ n da, Effect.name self = Some n ∧
    stores_magnitude self (OfNumber x) da ∧
    Effect.magnitude (Effect.with__magnitude (Some da) self) = Some da ∧
    da_attrs da !! "units" = None ∧
    da_name da = Some ("u_" +:+ n).

(** ** Fixtures: datasets *)

(** Six Earth scanlines between calibrations at times 0, 40 and 80. *)
Definition short_orbit : Dataset := {|
  ds_dims := {[ "calibrated_channel" := 19; "scanpos" := 56;
                "scanline_earth" := 6; "calibration_cycle" := 3 ]};
  ds_variables := {[ "scanline_earth" := [6; 12; 18; 46; 52; 86]%Z;
                     "calibration_cycle" := [0; 40; 80]%Z ]}
|}.

(** The dimensions of one orbit file: 19 channels, 100 scanlines, 56
    scan positions. *)
Definition orbit_dims : Dataset := {|
  ds_dims := {[ "calibrated_channel" := 19; "scanline_earth" := 100;
                "scanpos" := 56 ]};
  ds_variables := ∅
|}.

(** ** Fixtures: entries of the catalogue and stand-ins for the collaborators *)

Definition _random : assigned string :=
  Sequence ["random"; "random"; "random"; "random"].
Definition _systematic : assigned string :=
  Sequence ["rectangular_absolute"; "rectangular_absolute";
            "rectangular_absolute"; "rectangular_absolute"].
Definition _inf : assigned scale_value :=
  Sequence [Number PosInf; Number PosInf; Number PosInf; Number PosInf].

Definition earth_counts_noise_kwargs : list Effect.kwarg :=
  [Effect.kw_name (Some "C_Earth");
   Effect.kw_description (Some "noise on Earth counts");
   Effect.kw_parameter (Some "C_E");
   Effect.kw_correlation_type _random;
   Effect.kw_unit (Some "count");
   Effect.kw_channel_correlations (Some (eye 19));
   Effect.kw_dimensions (Some ["calibration_cycle"]);
   Effect.kw_rmodel (Some rmodel_random)].

Definition SRF_calib_kwargs : list Effect.kwarg :=
  [Effect.kw_name (Some "SRF_calib");
   Effect.kw_description (Some "Spectral response function calibration");
   Effect.kw_parameter (Some "νstar");
   Effect.kw_correlation_type _systematic;
   Effect.kw_correlation_scale _inf;
   Effect.kw_unit (Some "nm");
   Effect.kw_dimensions (Some []);
   Effect.kw_channel_correlations (Some (eye 19));
   Effect.kw_rmodel (Some rmodel_common)].

Definition IWCT_type_b_kwargs : list Effect.kwarg :=
  [Effect.kw_name (Some "O_TPRT");
   Effect.kw_description (Some "IWCT type B");
   Effect.kw_parameter (Some "O_TPRT");
   Effect.kw_correlation_type _systematic;
   Effect.kw_correlation_scale _inf;
   Effect.kw_unit (Some "K");
   Effect.kw_dimensions (Some []);
   Effect.kw_channel_correlations (Some (replicate 19 (replicate 19 1%Q)));
   Effect.kw_rmodel (Some rmodel_calib)].

Definition blockmat : matrix :=
  replicate 12 (replicate 12 1%Q ++ replicate 9 0%Q) ++
  replicate 9 (replicate 12 0%Q ++ replicate 9 1%Q).

Definition nonlinearity_kwargs : list Effect.kwarg :=
  [Effect.kw_name (Some "a_2");
   Effect.kw_description (Some "Nonlinearity");
   Effect.kw_parameter (Some "a_2");
   Effect.kw_correlation_type _systematic;
   Effect.kw_correlation_scale _inf;
   Effect.kw_unit (Some "W / (count ** 2 * Hz * m ** 2 * sr)");
   Effect.kw_dimensions (Some []);
   Effect.kw_channel_correlations (Some blockmat);
   Effect.kw_rmodel (Some rmodel_common)].

Definition nonnonlinearity_kwargs : list Effect.kwarg :=
  [Effect.kw_name (Some "O_Re");
   Effect.kw_description (Some "Wrongness of nonlinearity");
   Effect.kw_parameter (Some "O_Re");
   Effect.kw_correlation_type _systematic;
   Effect.kw_correlation_scale _inf;
   Effect.kw_unit (Some "mW / (cm ** -1 * m ** 2 * sr)");
   Effect.kw_dimensions (Some []);
   Effect.kw_channel_correlations (Some blockmat);
   Effect.kw_rmodel (Some rmodel_common)].

Definition electronics_kwargs : list Effect.kwarg :=
  [Effect.kw_name (Some "electronics");
   Effect.kw_description (Some "unknown electronics effects");
   Effect.kw_parameter (Some "O_Re");
   Effect.kw_correlation_type _systematic;
   Effect.kw_correlation_scale _inf;
   Effect.kw_channel_correlations (Some blockmat);
   Effect.kw_dimensions (Some []);
   Effect.kw_unit (Some "mW / (cm ** -1 * m ** 2 * sr)");
   Effect.kw_rmodel (Some rmodel_common)].

(** A registry pair that knows the data variable [a_2] only. *)
Definition sample_defs : fcdr_defs := {|
  var_props := gmap string string;
  var_props_3 := id;
  FCDR_data_vars_props := {[ "a_2" := {[ "dtype" := "f4" ]} ]};
  FCDR_uncertainty_encodings := ∅
|}.

Definition sample_meq : measurement_equation := {|
  calc_sensitivity_coefficient := λ s p, "d" +:+ s +:+ "/d" +:+ str p
|}.

(** The instance the keywords leave behind, construction stopped before the
    registration. *)
Definition constructed (kwargs : list Effect.kwarg) : Effect.t :=
  (@Effect.init_attributes sample_defs sample_meq kwargs Effect.class_defaults).1.

Definition earth_counts_noise : Effect.t := constructed earth_counts_noise_kwargs.
Definition SRF_calib : Effect.t := constructed SRF_calib_kwargs.
Definition IWCT_type_b : Effect.t := constructed IWCT_type_b_kwargs.
Definition nonlinearity : Effect.t := constructed nonlinearity_kwargs.

(** The state after part of the catalogue has been constructed. *)
Definition construct_all (catalogue : list (list Effect.kwarg)) (w : World)
  : option World :=
  foldl (λ ow kwargs,
           w ← ow; wr ← @Effect_new sample_defs sample_meq kwargs w; Some wr.1)
        (Some w) catalogue.

Definition catalogue_world : World :=
  default World_initial
    (construct_all
       [earth_counts_noise_kwargs; SRF_calib_kwargs; IWCT_type_b_kwargs;
        nonlinearity_kwargs; nonnonlinearity_kwargs; electronics_kwargs]
       World_initial).

(** Three constructions that must fail: a misspelt correlation type, a
    correlation scale that is no number, a keyword that is no attribute. *)
Definition misspelt_type_kwargs : list Effect.kwarg :=
  [Effect.kw_name (Some "Earthshine");
   Effect.kw_parameter (Some "R_refl");
   Effect.kw_correlation_type
     (Sequence ["rectangular_absolute"; "rectangular_absolute";
                "gaussian"; "triangular_relative"]);
   Effect.kw_rmodel (Some rmodel_calib)].

Definition textual_scale_kwargs : list Effect.kwarg :=
  [Effect.kw_name (Some "Earthshine");
   Effect.kw_parameter (Some "R_refl");
   Effect.kw_correlation_scale
     (Sequence [Number PosInf; NonNumeric "'inf'"; Number PosInf; Number PosInf])].

Definition unknown_keyword_kwargs : list Effect.kwarg :=
  [Effect.kw_name (Some "Earthshine");
   Effect.kw_other "colour" eq_refl;
   Effect.kw_parameter (Some "R_refl")].

(** What a caller does to a snapshot of [catalogue_world], whose dict is
    object 1 and whose sets are objects 5 to 9: drop a key, empty a set of
    one member, add a key with a new set and put an effect in it, move a set
    under another key. *)
Definition snapshot_mutations : list mutation :=
  [dict_delitem 1 (Some "C_E");
   set_discard_member 6 7;
   dict_setitem_new_set 1 None;
   set_add_member 10 0;
   dict_setitem 1 (Some "a_2") 9].

(** A systematic effect whose scale is a two-element array of infinities on
    every axis, and one whose scale is 1000 on every axis. *)
Definition inf_pair : scale_value := Ndarray PosInf [PosInf].

Definition array_scaled : Effect.t :=
  constructed
    [Effect.kw_name (Some "SRF_calib");
     Effect.kw_correlation_type _systematic;
     Effect.kw_correlation_scale
       (Sequence [inf_pair; inf_pair; inf_pair; inf_pair])].

Definition finite_scaled : Effect.t :=
  constructed
    [Effect.kw_name (Some "SRF_calib");
     Effect.kw_correlation_type _systematic;
     Effect.kw_correlation_scale
       (Sequence [Number (Finite 1000); Number (Finite 1000);
                  Number (Finite 1000); Number (Finite 1000)])].

(** * Verified properties *)

(** ** Array helpers *)

Lemma stride_one {A : Type} (l : list A) : stride 1 0 l = l.
Proof. induction l as [|x l IH]; simpl; [done | by rewrite IH]. Qed.

Lemma tile_axis_one {A : Type} (l : list A) : tile_axis 1 l = l.
Proof. unfold tile_axis. simpl. apply app_nil_r. Qed.

Lemma tile_axis_singleton {A : Type} (n : nat) (x : A) :
  tile_axis n [x] = replicate n x.
Proof. unfold tile_axis. induction n as [|n IH]; simpl; [done | by rewrite IH]. Qed.

Lemma map_id_ext {A : Type} (f : A → A) (l : list A) :
  (∀ x, f x = x) → map f l = l.
Proof. intros Hf. induction l as [|x l IH]; simpl; [done | by rewrite Hf, IH]. Qed.

Lemma tile4_slices (n0 n1 : nat) (M : matrix) :
  tile4 n0 n1 1 1 [[M]] = replicate n0 (replicate n1 M).
Proof.
  unfold tile4. simpl.
  rewrite (map_id_ext (tile_axis 1) M) by apply tile_axis_one.
  rewrite tile_axis_one.
  by rewrite !tile_axis_singleton.
Qed.

Lemma ceil_div_one (n : nat) : ceil_div n 1 = Ok n.
Proof.
  unfold ceil_div. simpl. f_equal.
  replace (n + 1 - 1) with n by lia. apply Nat.div_1_r.
Qed.

Lemma slice_step2_one (R : matrix) : slice_step2 1 1 R = Ok R.
Proof.
  unfold slice_step2, slice_step. simpl. rewrite stride_one. f_equal.
  apply map_id_ext, stride_one.
Qed.

Lemma eye_lookup (n i j : nat) :
  i < n → j < n →
  (r ← eye n !! i; r !! j) = Some (astype_f4 (i =? j)).
Proof.
  intros Hi Hj. unfold eye.
  rewrite list_lookup_fmap, lookup_seq_lt by done. simpl.
  by rewrite list_lookup_fmap, lookup_seq_lt.
Qed.

Lemma eye_shape (n : nat) :
  length (eye n) = n ∧ Forall (λ r : list Q, length r = n) (eye n).
Proof.
  unfold eye. split.
  - by rewrite length_map, length_seq.
  - apply Forall_forall. intros r Hr.
    apply list_elem_of_fmap in Hr as (i & -> & _).
    by rewrite length_map, length_seq.
Qed.

Lemma gt_sum_boundaries (cc : list Z) (t : Z) :
  gt_sum cc t = boundaries_before cc t.
Proof.
  unfold gt_sum, boundaries_before.
  induction cc as [|c cc IH]; simpl; [done |].
  rewrite filter_cons. destruct (Z.ltb_spec c t) as [Hlt | Hge].
  - rewrite decide_True by done. simpl. by rewrite IH.
  - rewrite decide_False by lia. by rewrite IH.
Qed.

Lemma entry4_replicate (n0 n1 : nat) (M : matrix) (c e i j : nat) :
  c < n0 → e < n1 →
  entry4 (replicate n0 (replicate n1 M)) c e i j = (r ← M !! i; r !! j).
Proof.
  intros Hc He. unfold entry4.
  rewrite (lookup_replicate_2 n0 _ c) by done. cbn [mbind option_bind].
  by rewrite (lookup_replicate_2 n1 _ e).
Qed.

(** ** The calibration-cycle model *)

(** C2. For a dataset carrying the dimensions and the two coordinates,
    [RModelCalib.calc_R_lΛekx] with sampling 1 returns an array with one
    scanline-by-scanline matrix per channel and scan position, whose entry
    for scanlines [i] and [j] is 1 exactly when the same number of
    calibration-cycle boundaries precede both, 0 otherwise, and whose
    diagonal is 1. *)
Theorem calib_R_l_same_calibration_cycle
  (ds : Dataset) (n_c n_e : nat) (scanline_earth calibration_cycle : list Z) :
  ds_dims ds !! "calibrated_channel" = Some n_c →
  ds_dims ds !! "scanpos" = Some n_e →
  ds_variables ds !! "scanline_earth" = Some scanline_earth →
  ds_variables ds !! "calibration_cycle" = Some calibration_cycle →
  ∃ R, RModelCalib.calc_R_lΛekx ds 1 1 = Ok R ∧
    has_shape4 R n_c n_e (length scanline_earth) (length scanline_earth) ∧
    (∀ c e i j t_i t_j, c < n_c → e < n_e →
       scanline_earth !! i = Some t_i → scanline_earth !! j = Some t_j →
       entry4 R c e i j =
         Some (if decide (boundaries_before calibration_cycle t_i =
                          boundaries_before calibration_cycle t_j)
               then 1%Q else 0%Q)) ∧
    (∀ c e i, c < n_c → e < n_e → i < length scanline_earth →
       entry4 R c e i i = Some 1%Q).
Proof.
  intros Hc He Hsl Hcc.
  set (ccid := map (gt_sum calibration_cycle) scanline_earth).
  set (M := map (λ a, map (λ b, astype_f4 (a =? b)) ccid) ccid).
  assert (Hentry : ∀ i j t_i t_j,
    scanline_earth !! i = Some t_i → scanline_earth !! j = Some t_j →
    (r ← M !! i; r !! j) =
      Some (astype_f4 (gt_sum calibration_cycle t_i =? gt_sum calibration_cycle t_j))).
  { intros i j t_i t_j Hi Hj. unfold M, ccid.
    rewrite !list_lookup_fmap, Hi. simpl.
    by rewrite !list_lookup_fmap, Hj. }
  exists (replicate n_c (replicate n_e M)). split; [| split; [| split]].
  - unfold RModelCalib.calc_R_lΛekx, variable, dims, getitem.
    rewrite Hsl, Hcc. cbn [mbind result_bind]. fold ccid. fold M.
    rewrite slice_step2_one. cbn [mbind result_bind]. rewrite Hc, He.
    cbn [mbind result_bind]. rewrite ceil_div_one. cbn [mbind result_bind].
    by rewrite tile4_slices.
  - split; [apply length_replicate |].
    apply Forall_replicate. split; [apply length_replicate |].
    apply Forall_replicate. unfold M, ccid.
    split; [by rewrite !length_map |].
    apply Forall_forall. intros r Hr.
    apply list_elem_of_fmap in Hr as (a & -> & _). by rewrite !length_map.
  - intros c e i j t_i t_j Hlc Hle Hi Hj.
    rewrite entry4_replicate by done.
    rewrite (Hentry i j t_i t_j Hi Hj), !gt_sum_boundaries. f_equal.
    unfold astype_f4. case_decide as Heq.
    + by rewrite Heq, Nat.eqb_refl.
    + by apply Nat.eqb_neq in Heq as ->.
  - intros c e i Hlc Hle Hi.
    destruct (lookup_lt_is_Some_2 scanline_earth i Hi) as [t Ht].
    rewrite entry4_replicate by done.
    by rewrite (Hentry i i t t Ht Ht), Nat.eqb_refl.
Qed.

(** The same at [short_orbit], whose dimensions and coordinates are looked
    up by evaluation. *)
Lemma calib_R_l_same_calibration_cycle_witness :
  ∃ R, RModelCalib.calc_R_lΛekx short_orbit 1 1 = Ok R ∧
    has_shape4 R 19 56 6 6 ∧
    (∀ c e i j t_i t_j, c < 19 → e < 56 →
       [6; 12; 18; 46; 52; 86]%Z !! i = Some t_i →
       [6; 12; 18; 46; 52; 86]%Z !! j = Some t_j →
       entry4 R c e i j =
         Some (if decide (boundaries_before [0; 40; 80]%Z t_i =
                          boundaries_before [0; 40; 80]%Z t_j)
               then 1%Q else 0%Q)) ∧
    (∀ c e i, c < 19 → e < 56 → i < 6 → entry4 R c e i i = Some 1%Q).
Proof.
  apply (calib_R_l_same_calibration_cycle short_orbit 19 56
           [6; 12; 18; 46; 52; 86]%Z [0; 40; 80]%Z); by vm_compute.
Defined.

(** The scanline matrix of [short_orbit]: three scanlines in the first
    calibration cycle, two in the second, one in the third. *)
Example calib_R_l_short_orbit :
  (λ R, entry4 R 0 0 0 2 :: entry4 R 0 0 2 3 :: entry4 R 18 55 3 4 ::
        entry4 R 7 20 4 5 :: entry4 R 7 20 5 5 :: []) <$>
    match RModelCalib.calc_R_lΛekx short_orbit 1 1 with
    | Ok R => Some R
    | Raise _ => None
    end =
  Some [Some 1%Q; Some 0%Q; Some 1%Q; Some 0%Q; Some 1%Q].
Proof. by vm_compute. Qed.

(** ** The random model *)

Lemma slice_replicate (n0 n1 : nat) (M : matrix) (c l : nat) :
  c < n0 → l < n1 →
  (row ← replicate n0 (replicate n1 M) !! c; row !! l) = Some M.
Proof.
  intros Hc Hl.
  rewrite (lookup_replicate_2 n0 _ c) by done. cbn [mbind option_bind].
  by rewrite (lookup_replicate_2 n1 _ l).
Qed.

Lemma has_shape4_replicate (n0 n1 n2 n3 : nat) (M : matrix) :
  length M = n2 → Forall (λ r : list Q, length r = n3) M →
  has_shape4 (replicate n0 (replicate n1 M)) n0 n1 n2 n3.
Proof.
  intros Hrows Hcols. split; [apply length_replicate |].
  apply Forall_replicate. split; [apply length_replicate |].
  by apply Forall_replicate.
Qed.

Lemma random_R_e_default_sampling (ds : Dataset) (n_c n_l n_e : nat) :
  ds_dims ds !! "calibrated_channel" = Some n_c →
  ds_dims ds !! "scanline_earth" = Some n_l →
  ds_dims ds !! "scanpos" = Some n_e →
  RModelRandom.calc_R_eΛlkx ds 1 1 = Ok (replicate n_c (replicate n_l (eye n_e))).
Proof.
  intros Hc Hl He.
  unfold RModelRandom.calc_R_eΛlkx, dims, getitem.
  rewrite He. cbn [mbind result_bind]. rewrite ceil_div_one.
  cbn [mbind result_bind]. rewrite Hc, Hl. cbn [mbind result_bind].
  rewrite ceil_div_one. cbn [mbind result_bind].
  by rewrite tile4_slices.
Qed.

(** C4. For a dataset with 19 calibrated channels, 100 Earth scanlines and
    56 scan positions and the default sampling,
    [RModelRandom.calc_R_eΛlkx] returns an array of shape (19, 100, 56, 56)
    in which every [c, l] slice is the 56 by 56 identity matrix. *)
Theorem random_R_e_identity_slices (ds : Dataset) :
  ds_dims ds !! "calibrated_channel" = Some 19 →
  ds_dims ds !! "scanline_earth" = Some 100 →
  ds_dims ds !! "scanpos" = Some 56 →
  ∃ R, RModelRandom.calc_R_eΛlkx ds 1 1 = Ok R ∧
    has_shape4 R 19 100 56 56 ∧
    (∀ c l, c < 19 → l < 100 → (row ← R !! c; row !! l) = Some (eye 56)) ∧
    (∀ c l i j, c < 19 → l < 100 → i < 56 → j < 56 →
       entry4 R c l i j = Some (if decide (i = j) then 1%Q else 0%Q)).
Proof.
  intros Hc Hl He.
  exists (replicate 19 (replicate 100 (eye 56))). split; [| split; [| split]].
  - by apply random_R_e_default_sampling.
  - destruct (eye_shape 56) as [Hrows Hcols].
    by apply has_shape4_replicate.
  - intros c l Hlc Hll. by apply slice_replicate.
  - intros c l i j Hlc Hll Hi Hj.
    rewrite entry4_replicate by done.
    rewrite eye_lookup by done. f_equal. unfold astype_f4.
    case_decide as Heq.
    + by rewrite Heq, Nat.eqb_refl.
    + by apply Nat.eqb_neq in Heq as ->.
Qed.

(** The same at [orbit_dims]. *)
Lemma random_R_e_identity_slices_witness :
  ∃ R, RModelRandom.calc_R_eΛlkx orbit_dims 1 1 = Ok R ∧
    has_shape4 R 19 100 56 56 ∧
    (∀ c l, c < 19 → l < 100 → (row ← R !! c; row !! l) = Some (eye 56)) ∧
    (∀ c l i j, c < 19 → l < 100 → i < 56 → j < 56 →
       entry4 R c l i j = Some (if decide (i = j) then 1%Q else 0%Q)).
Proof.
  apply (random_R_e_identity_slices orbit_dims); by vm_compute.
Defined.

(** ** The common model *)

(** C5. Both matrix methods of [RModelCommon] raise [ValueError] for every
    dataset, the empty one included, and every sampling; the two raise the
    same exception, the second method being the first under another name. *)
Theorem common_rmodel_always_rejects
  (ds : Dataset) (sampling_l sampling_e : nat) :
  RModelCommon.calc_R_eΛlkx ds sampling_l sampling_e =
    Raise (ValueError
      "We do not calculate error correlation matrices for common effects") ∧
  RModelCommon.calc_R_lΛekx ds sampling_l sampling_e =
    RModelCommon.calc_R_eΛlkx ds sampling_l sampling_e ∧
  RModelCommon.calc_R_lΛekx empty_dataset sampling_l sampling_e =
    RModelCommon.calc_R_eΛlkx ds sampling_l sampling_e ∧
  (∀ R, RModelCommon.calc_R_eΛlkx ds sampling_l sampling_e ≠ Ok R) ∧
  (∀ R, RModelCommon.calc_R_lΛekx ds sampling_l sampling_e ≠ Ok R).
Proof.
  unfold RModelCommon.calc_R_lΛekx, RModelCommon.calc_R_eΛlkx.
  repeat split; intros R HR; discriminate HR.
Qed.

(** ** Classification of effects *)

Lemma py_all_scalars (l : list scale_value) :
  Forall scalar l →
  ∃ b : bool, py_all isinf_truth l = Ok b ∧ (b = true ↔ Forall infinite l).
Proof.
  induction l as [|v l IH]; intros Hs.
  - exists true. split; [done |]. split; [constructor | done].
  - inversion Hs as [|? ? Hv Hl]; subst.
    destruct v as [x | |]; try done. simpl.
    destruct (isinf x) eqn:Hx.
    + destruct (IH Hl) as (b & Hb & Hiff). exists b. split; [done |].
      rewrite Hiff. split.
      * intros Hall. by constructor.
      * intros Hall. by inversion Hall.
    + exists false. split; [done |]. split; [done |].
      intros Hall. inversion Hall as [|? ? Hinf _]; subst. simpl in Hinf.
      congruence.
Qed.

Lemma forallb_axes (self : Effect.t) (s : string) :
  forallb (λ x, String.eqb x s) (items (Effect.correlation_type self)) = true
  ↔ axes_all self s.
Proof.
  unfold axes_all. rewrite forallb_forall, Forall_forall.
  split; intros H x Hx.
  - apply String.eqb_eq, H. by apply list_elem_of_In.
  - apply String.eqb_eq, H. by apply list_elem_of_In.
Qed.



Example is_common_finite_scale : Effect.is_common finite_scaled = Ok false.
Proof. by vm_compute. Qed.

Example is_common_catalogue :
  Effect.is_common SRF_calib = Ok true ∧
  Effect.is_common IWCT_type_b = Ok true ∧
  Effect.is_common earth_counts_noise = Ok false.
Proof. by vm_compute. Qed.


(** ** Validation of the correlation type *)

Lemma coerce_items {A : Type} (cls : string) (t : Correlation A) :
  coerce cls (Sequence (items t)) = Ok t.
Proof. by destruct t. Qed.

Lemma correlation_type_setter_run
    (self : Effect.t) (t : CorrelationType) (v : assigned string) :
  coerce "CorrelationType" v = Ok t →
  correlation_type_assignment self t v.
Proof.
  intros Hv. unfold correlation_type_assignment, first_unknown.
  unfold Effect.correlation_type_setter, mbind, stateE_bind, lift.
  rewrite Hv. destruct t as [a b c d].
  unfold items, for_each, mbind, stateE_bind, mret, stateE_ret, raise, modify.
  cbn [within_scanline between_scanlines between_orbits across_time find].
  destruct (bool_decide (a ∈ Effect._valid_correlation_types)); cbn [negb];
    [| by vm_compute].
  destruct (bool_decide (b ∈ Effect._valid_correlation_types)); cbn [negb];
    [| by vm_compute].
  destruct (bool_decide (c ∈ Effect._valid_correlation_types)); cbn [negb];
    [| by vm_compute].
  destruct (bool_decide (d ∈ Effect._valid_correlation_types)); cbn [negb];
    [| by vm_compute].
  done.
Qed.


Example correlation_type_gaussian_rejected :
  Effect.correlation_type_setter
    (Sequence ["random"; "gaussian"; "random"; "random"]) SRF_calib =
  (SRF_calib,
   Raise (ValueError
     "Unknown correlation type: gaussian. Expected one of: undefined, random, rectangular_absolute, triangular_relative, truncated_gaussian_relative, repeated_rectangles, repeated_truncated_gaussians")).
Proof. by vm_compute. Qed.

(** ** Not-yet-implemented models *)

(** C9. Both matrix methods of the periodic-error and self-emission models,
    and [calc_R_cΛpx] of any effect whatever its [rmodel], raise
    [NotImplementedError]; an [except] clause for it does not catch the
    [ValueError] of the common model, nor the other way round. *)
Theorem not_implemented_is_distinguishable
    (self : Effect.t) (ds : Dataset) (sampling_l sampling_e : nat) :
  RModelPeriodicError.calc_R_eΛlkx ds sampling_l sampling_e =
    Raise (NotImplementedError "") ∧
  RModelPeriodicError.calc_R_lΛekx ds sampling_l sampling_e =
    Raise (NotImplementedError "") ∧
  RModelRSelf.calc_R_eΛlkx ds sampling_l sampling_e =
    Raise (NotImplementedError "") ∧
  RModelRSelf.calc_R_lΛekx ds sampling_l sampling_e =
    Raise (NotImplementedError "") ∧
  Effect.calc_R_cΛpx self = Raise (NotImplementedError "Not implemented") ∧
  (∀ msg e,
     RModelCommon.calc_R_eΛlkx ds sampling_l sampling_e = Raise e →
     isinstance (NotImplementedError msg) class_NotImplementedError = true ∧
     isinstance (NotImplementedError msg) class_ValueError = false ∧
     isinstance e class_ValueError = true ∧
     isinstance e class_NotImplementedError = false).
Proof.
  repeat split; try reflexivity.
  all: match goal with H : _ = Raise _ |- _ => inversion H end.
  all: reflexivity.
Qed.

(** ** The magnitude setter *)

Section Magnitude.

Context `{!fcdr_defs} `{!measurement_equation}.

Lemma magnitude_setter_run (self : Effect.t) (v : magnitude_value) :
  Effect.magnitude_setter v self =
    match Effect.stamped self v with
    | Ok da => (Effect.with__magnitude (Some da) self, Ok ())
    | Raise e => (self, Raise e)
    end.
Proof.
  unfold Effect.magnitude_setter, mbind, stateE_bind, gets, lift, modify.
  simpl. by destruct (Effect.stamped self v).
Qed.

Lemma stamped_named (self : Effect.t) (n : string) (v : magnitude_value) :
  Effect.name self = Some n →
  match FCDR_data_vars_props !! n with
  | Some p =>
      ∃ da, Effect.stamped self v = Ok da ∧
        da_encoding da =
          default ∅ (FCDR_uncertainty_encodings !! n) ∪
            (var_props_3 p ∪ da_encoding (Effect.as_DataArray v))
  | None =>
      if String.prefix "O_" n
      then ∃ da, Effect.stamped self v = Ok da ∧
             da_encoding da =
               default ∅ (FCDR_uncertainty_encodings !! n) ∪
                 da_encoding (Effect.as_DataArray v)
      else Effect.stamped self v = Raise (KeyError n)
  end.
Proof.
  intros Hname. unfold Effect.stamped. rewrite Hname.
  cbn [format_s mbind result_bind].
  assert (Hn : ∃ o, match da_name (Effect.as_DataArray v) with
               | Some n0 => Ok (Some n0)
               | None => Ok (Some ("u_" +:+ n)) end = @Ok (option string) o).
  { destruct (da_name _); eauto. }
  destruct Hn as [o ->]. cbn [mbind result_bind].
  unfold getitem.
  destruct (FCDR_data_vars_props !! n) as [p|] eqn:Hp.
  - rewrite orb_true_r. cbn [mbind result_bind]. eauto.
  - rewrite orb_false_r.
    destruct (String.prefix "O_" n); cbn [negb mbind result_bind]; eauto.
Qed.

Lemma stamped_plain_number
    (self : Effect.t) (n : string) (x : number) (da : DataArray) :
  Effect.name self = Some n →
  Effect.stamped self (OfNumber x) = Ok da →
  da_name da = Some ("u_" +:+ n) ∧ da_attrs da !! "units" = None.
Proof.
  intros Hname. unfold Effect.stamped. rewrite Hname.
  cbn [Effect.as_DataArray DataArray_of da_name da_attrs da_values
       da_encoding format_s mbind result_bind].
  destruct (if _ : bool then _ else _) as [enc|e]; cbn [mbind result_bind];
    [| done].
  intros [= <-]. cbn [da_name da_attrs]. split; [done |]. by vm_compute.
Qed.

End Magnitude.




(** C8, as amended. For an effect whose name has an entry in
    [FCDR_data_vars_props] or begins with ["O_"], assigning a plain number to
    [magnitude] stores an array that has no [units] attribute and is named
    ["u_"] followed by the name of the effect. *)
Theorem magnitude_of_plain_number
    `{!fcdr_defs} `{!measurement_equation}
    (self : Effect.t) (n : string) (x : number) :
  Effect.name self = Some n →
  String.prefix "O_" n = true ∨ is_Some (FCDR_data_vars_props !! n) →
  plain_number_magnitude self x.
Proof.
  intros Hname Hknown.
  pose proof (stamped_named self n (OfNumber x) Hname) as Hst.
  assert (Hda : ∃ da, Effect.stamped self (OfNumber x) = Ok da).
  { destruct (FCDR_data_vars_props !! n) as [p|].
    - destruct Hst as (da & Hda & _). eauto.
    - destruct Hknown as [Hprefix | [p Hp]]; [| done].
      rewrite Hprefix in Hst. destruct Hst as (da & Hda & _). eauto. }
  destruct Hda as [da Hda].
  destruct (stamped_plain_number self n x da Hname Hda) as [Hn Hu].
  exists n, da. split; [done |]. split; [| done].
  unfold stores_magnitude. by rewrite magnitude_setter_run, Hda.
Qed.

(** The same at the catalogue's [a_2], which the sample table knows. *)
Lemma magnitude_of_plain_number_witness :
  @plain_number_magnitude sample_defs sample_meq nonlinearity (Finite 3).
Proof.
  apply (@magnitude_of_plain_number sample_defs sample_meq nonlinearity "a_2").
  - by vm_compute.
  - right. eexists. vm_compute. reflexivity.
Defined.

(** The array stored for [O_TPRT], a name that begins with ["O_"], when its
    magnitude is the plain number 0.1. *)
Example magnitude_of_IWCT_type_b :
  (λ e, (da_name <$> Effect.magnitude e,
         (λ da, da_attrs da !! "units") <$> Effect.magnitude e,
         (λ da, da_attrs da !! "short_name") <$> Effect.magnitude e,
         (λ da, da_attrs da !! "correlation_type_between_orbits") <$>
           Effect.magnitude e))
    (@Effect.magnitude_setter sample_defs sample_meq
       (OfNumber (Finite 0.1)) IWCT_type_b).1 =
  (Some (Some "u_O_TPRT"), Some None, Some (Some (AttrText "O_TPRT")),
   Some (Some (AttrText "rectangular_absolute"))).
Proof. by vm_compute. Qed.

(** A quantity keeps its unit, and a name the table knows gets the table's
    encoding. *)
Example magnitude_of_nonlinearity :
  (λ e, ((λ da, da_attrs da !! "units") <$> Effect.magnitude e,
         (λ da, da_encoding da !! "dtype") <$> Effect.magnitude e))
    (@Effect.magnitude_setter sample_defs sample_meq
       (OfQuantity (Finite 3) "W / (count ** 2 * Hz * m ** 2 * sr)")
       nonlinearity).1 =
  (Some (Some (AttrUnit "W / (count ** 2 * Hz * m ** 2 * sr)")),
   Some (Some "f4")).
Proof. by vm_compute. Qed.

(** C8, as stated, fails for an effect such as [SRF_calib] when its name has
    no entry in [FCDR_data_vars_props]: the assignment raises [KeyError] and
    no array is stored. *)
Lemma magnitude_of_plain_number_unregistered :
  @Effect.magnitude_setter sample_defs sample_meq
      (OfNumber (Finite 1)) SRF_calib =
    (SRF_calib, Raise (KeyError "SRF_calib")) ∧
  Effect.magnitude SRF_calib = None ∧
  ¬ @plain_number_magnitude sample_defs sample_meq SRF_calib (Finite 1).
Proof.
  assert (Hrun : @Effect.magnitude_setter sample_defs sample_meq
      (OfNumber (Finite 1)) SRF_calib =
    (SRF_calib, Raise (KeyError "SRF_calib"))) by (by vm_compute).
  split; [exact Hrun |]. split; [by vm_compute |].
  intros (n & da & _ & Hstore & _).
  unfold stores_magnitude in Hstore. rewrite Hrun in Hstore.
  apply (f_equal snd) in Hstore. cbn [snd] in Hstore. discriminate Hstore.
Qed.

(** ** The process state: growth and views *)

Lemma grows_refl {A : Type} (l : list A) : grows l l.
Proof. by intros i x. Qed.

Lemma grows_trans {A : Type} (l1 l2 l3 : list A) :
  grows l1 l2 → grows l2 l3 → grows l1 l3.
Proof. intros H12 H23 i x Hi. by apply H23, H12. Qed.

Lemma grows_app {A : Type} (l l' : list A) : grows l (l ++ l').
Proof. intros i x Hi. by apply lookup_app_l_Some. Qed.

Lemma grows_length {A : Type} (l l' : list A) : grows l l' → length l ≤ length l'.
Proof.
  intros Hg. destruct l as [|y l] using rev_ind; [simpl; lia |].
  clear IHl. specialize (Hg (length l) y).
  rewrite lookup_app_r, Nat.sub_diag in Hg by done.
  apply lookup_lt_Some in Hg; [| done]. rewrite length_app. simpl. lia.
Qed.

Lemma grows_insert_outside {A : Type} (l l' : list A) (i : nat) (x : A) :
  grows l l' → length l ≤ i → grows l (<[i := x]> l').
Proof.
  intros Hg Hi j y Hj. rewrite list_lookup_insert_ne; [by apply Hg |].
  apply lookup_lt_Some in Hj. lia.
Qed.

Lemma preserves_refl (w : World) : preserves w w.
Proof. repeat split; apply grows_refl. Qed.

Lemma preserves_trans (w1 w2 w3 : World) :
  preserves w1 w2 → preserves w2 w3 → preserves w1 w3.
Proof.
  intros (He & Hs & Hd & Hr) (He' & Hs' & Hd' & Hr').
  repeat split; try (eapply grows_trans; eassumption). congruence.
Qed.

Lemma mapM_grows {A B : Type} (f f' : A → option B) (l : list A) (k : list B) :
  (∀ x y, x ∈ l → f x = Some y → f' x = Some y) →
  mapM f l = Some k → mapM f' l = Some k.
Proof.
  intros Hf. rewrite !mapM_Some. intros H2.
  induction H2 as [|x y l k Hxy H2 IH]; constructor.
  - apply Hf; [left | done].
  - apply IH. intros x' y' Hx'. apply Hf. by right.
Qed.

Lemma set_view_preserved (w w' : World) (s : ref) (es : list Effect.t) :
  preserves w w' → set_view w s = Some es → set_view w' s = Some es.
Proof.
  intros (He & Hs & _) Hv. unfold set_view in *.
  destruct (set_objects w !! s) as [members|] eqn:Hm; [| done].
  rewrite (Hs _ _ Hm). simpl in *.
  eapply mapM_grows; [| exact Hv]. intros a e _. apply He.
Qed.

Lemma dict_view_preserved (w w' : World) (d : ref)
    (v : list (option Symbol * list Effect.t)) :
  preserves w w' → dict_view w d = Some v → dict_view w' d = Some v.
Proof.
  intros Hp Hv. pose proof Hp as (_ & _ & Hd & _). unfold dict_view in *.
  destruct (dict_objects w !! d) as [entries|] eqn:He; [| done].
  rewrite (Hd _ _ He). simpl in *.
  eapply mapM_grows; [| exact Hv]. intros [k s] y _. unfold item_view. simpl.
  destruct (set_view w s) as [es|] eqn:Hs; [| done].
  by rewrite (set_view_preserved w w' s es Hp Hs).
Qed.

Lemma mapM_is_Some_2 {A B : Type} (f : A → option B) (l : list A) :
  Forall (λ x, is_Some (f x)) l → is_Some (mapM f l).
Proof.
  induction 1 as [|x l [y Hy] _ [k Hk]]; [by eexists |].
  exists (y :: k). simpl. by rewrite Hy, Hk.
Qed.

Lemma set_view_is_Some (w : World) (s : ref) :
  well_formed w → s < length (set_objects w) → is_Some (set_view w s).
Proof.
  intros (_ & _ & Hsets) Hs. unfold set_view.
  destruct (lookup_lt_is_Some_2 _ _ Hs) as [members Hm]. rewrite Hm. simpl.
  apply mapM_is_Some_2.
  rewrite Forall_lookup in Hsets. specialize (Hsets _ _ Hm).
  eapply Forall_impl; [exact Hsets |]. intros a Ha. simpl in Ha.
  by apply lookup_lt_is_Some_2.
Qed.

Lemma dict_view_is_Some (w : World) (d : ref) :
  well_formed w → d < length (dict_objects w) → is_Some (dict_view w d).
Proof.
  intros Hwf Hd. pose proof Hwf as (_ & Hdicts & _). unfold dict_view.
  destruct (lookup_lt_is_Some_2 _ _ Hd) as [entries He]. rewrite He. simpl.
  apply mapM_is_Some_2.
  rewrite Forall_lookup in Hdicts. specialize (Hdicts _ _ He).
  eapply Forall_impl; [exact Hdicts |]. intros [k s] Hs. unfold item_view.
  simpl in *. destruct (set_view_is_Some w s Hwf Hs) as [es ->]. by eexists.
Qed.

Lemma well_formed_new_effect (w : World) (e : Effect.t) :
  well_formed w → well_formed (with_effect_objects (effect_objects w ++ [e]) w).
Proof.
  intros (Hroot & Hdicts & Hsets). split; [done |]. split; [done |].
  cbn [set_objects effect_objects with_effect_objects].
  eapply Forall_impl; [exact Hsets |]. intros members Hm.
  eapply Forall_impl; [exact Hm |]. intros a Ha. simpl in *.
  rewrite length_app. simpl. lia.
Qed.

Lemma preserves_new_effect (w : World) (e : Effect.t) :
  preserves w (with_effect_objects (effect_objects w ++ [e]) w).
Proof. repeat split; try apply grows_refl. apply grows_app. Qed.

(** ** Construction and registration *)

Lemma bind_raises {S A B : Type} (m : stateE S A) (f : A → stateE S B) (s : S) :
  raises m s → raises (m ≫= f) s.
Proof.
  intros (s' & e & Hm). exists s', e. unfold mbind, stateE_bind. by rewrite Hm.
Qed.

Lemma for_each_raises {S A : Type} (body : A → stateE S ()) (l : list A) (x : A) :
  x ∈ l → (∀ s, raises (body x) s) → ∀ s, raises (for_each body l) s.
Proof.
  intros Hx Hbody. induction l as [|y l IH]; intros s.
  - by apply elem_of_nil in Hx.
  - simpl. apply elem_of_cons in Hx as [<- | Hx].
    + apply bind_raises, Hbody.
    + unfold raises, mbind, stateE_bind.
      destruct (body y s) as [s1 [[]|e]]; [by apply IH | eauto].
Qed.

Lemma coerce_cases {A : Type} (cls : string) (v : assigned A) :
  (∃ e, coerce cls v = Raise e) ∨ (∃ t, coerce cls v = Ok t ∧ items t = slots v).
Proof.
  destruct v as [t | xs]; [right; by exists t |].
  destruct xs as [|a [|b [|c [|d [|? ?]]]]]; simpl; eauto.
Qed.

Section Rejected.
Context `{!fcdr_defs} `{!measurement_equation}.

Lemma setattr_rejected_raises (kw : Effect.kwarg) :
  rejected kw → ∀ s, raises (Effect.__setattr__ kw) s.
Proof.
  intros Hrej s. destruct kw; try done; simpl in Hrej.
  - (* correlation_type *)
    unfold Effect.__setattr__. replace (Effect.hasattr _) with true by (by vm_compute).
    cbn [Effect.object__setattr__]. unfold Effect.correlation_type_setter.
    destruct (coerce_cases "CorrelationType" v) as [[e He] | (t & Ht & Hitems)].
    + apply bind_raises. exists s, e. unfold lift. by rewrite He.
    + unfold raises. unfold mbind at 1, stateE_bind at 1, lift. rewrite Ht.
      apply bind_raises. rewrite Hitems.
      apply Exists_exists in Hrej as (x & Hx & Hbad).
      apply (for_each_raises _ _ x Hx). intros s0.
      rewrite bool_decide_false by done. by eexists _, _.
  - (* correlation_scale *)
    unfold Effect.__setattr__. replace (Effect.hasattr _) with true by (by vm_compute).
    cbn [Effect.object__setattr__]. unfold Effect.correlation_scale_setter.
    destruct (coerce_cases "CorrelationScale" v) as [[e He] | (t & Ht & Hitems)].
    + apply bind_raises. exists s, e. unfold lift. by rewrite He.
    + unfold raises. unfold mbind at 1, stateE_bind at 1, lift. rewrite Ht.
      apply bind_raises. rewrite Hitems.
      apply Exists_exists in Hrej as (x & Hx & Hbad).
      apply (for_each_raises _ _ x Hx). intros s0.
      rewrite Hbad. by eexists _, _.
  - (* a keyword that is no attribute *)
    unfold Effect.__setattr__, Effect.hasattr. cbn [Effect.key].
    rewrite bool_decide_false by (rewrite unknown; by intros [? ?]).
    by eexists _, _.
Qed.

Lemma init_plain_cases (popped later : list Effect.kwarg) (s : Effect.t) :
  raises (Effect.init_plain popped later) s ∨
  ∃ s' later', Effect.init_plain popped later s = (s', Ok later') ∧
    (∀ kw, kw ∈ later → kw ∈ later') ∧
    (∀ kw, kw ∈ popped →
       Effect.class_getattr (Effect.key kw) = Some Effect.Property → kw ∈ later') ∧
    (∀ kw, kw ∈ popped → Effect.class_getattr (Effect.key kw) ≠ None).
Proof.
  revert later s. induction popped as [|kw popped IH]; intros later s.
  - right. exists s, later. split; [done |]. split; [done |].
    split; intros kw Hkw; by apply elem_of_nil in Hkw.
  - cbn [Effect.init_plain].
    destruct (Effect.class_getattr (Effect.key kw)) as [[|]|] eqn:Hkind.
    + (* plain *)
      unfold raises, mbind, stateE_bind.
      destruct (Effect.__setattr__ kw s) as [s1 [[]|e]]; [| left; eauto].
      destruct (IH later s1) as [Hr | (s' & later' & Hrun & Hl & Hp & Hk)];
        [by left | right].
      exists s', later'. split; [done |]. split; [done |]. split.
      * intros kw' Hkw' Hprop. apply elem_of_cons in Hkw' as [-> | Hkw'];
          [congruence | by apply Hp].
      * intros kw' Hkw'. apply elem_of_cons in Hkw' as [-> | Hkw'];
          [congruence | by apply Hk].
    + (* property *)
      destruct (IH (later ++ [kw]) s) as [Hr | (s' & later' & Hrun & Hl & Hp & Hk)];
        [by left | right].
      exists s', later'. split; [done |]. split; [| split].
      * intros kw' Hkw'. apply Hl. apply elem_of_app. by left.
      * intros kw' Hkw' Hprop. apply elem_of_cons in Hkw' as [-> | Hkw'];
          [| by apply Hp].
        apply Hl. apply elem_of_app. right. by left.
      * intros kw' Hkw'. apply elem_of_cons in Hkw' as [-> | Hkw'];
          [congruence | by apply Hk].
    + left. by eexists _, _.
Qed.

Lemma init_attributes_rejected (kwargs : list Effect.kwarg) (s : Effect.t) :
  Exists rejected kwargs → raises (Effect.init_attributes kwargs) s.
Proof.
  intros Hex. apply Exists_exists in Hex as (kw & Hkw & Hrej).
  unfold Effect.init_attributes.
  destruct (init_plain_cases (reverse kwargs) [] s)
    as [Hr | (s' & later' & Hrun & _ & Hp & Hk)]; [by apply bind_raises |].
  unfold raises, mbind, stateE_bind. rewrite Hrun.
  assert (Hin : kw ∈ reverse kwargs) by (by apply elem_of_reverse).
  assert (Hprop : Effect.class_getattr (Effect.key kw) = Some Effect.Property).
  { destruct kw; try done; try (by vm_compute).
    by destruct (Hk _ Hin). }
  apply (for_each_raises _ _ kw).
  - apply elem_of_reverse. by apply Hp.
  - by apply setattr_rejected_raises.
Qed.
End Rejected.

Lemma dict_get_elem_of {K V : Type} `{EqDecision K} (k : K) (v : V) (d : list (K * V)) :
  dict_get k d = Some v → (k, v) ∈ d.
Proof.
  induction d as [|[k' v'] d IH]; simpl; [done |].
  case_decide as Hk.
  - intros [= ->]. subst. left.
  - intros Hget. right. by apply IH.
Qed.

Lemma dict_get_set {K V : Type} `{EqDecision K} (k : K) (v : V) (d : list (K * V)) :
  dict_get k (dict_set k v d) = Some v.
Proof.
  induction d as [|[k' v'] d IH]; simpl.
  - by rewrite decide_True.
  - case_decide as Hk; simpl.
    + by rewrite decide_True.
    + by rewrite decide_False.
Qed.

Lemma elem_of_set_add {K : Type} `{EqDecision K} (x : K) (s : list K) :
  x ∈ set_add x s.
Proof.
  unfold set_add. case_decide; [done |]. apply elem_of_app. right. left.
Qed.

Lemma lookup_snoc {A : Type} (l : list A) (x : A) : (l ++ [x]) !! length l = Some x.
Proof. by apply list_lookup_middle. Qed.

Lemma insert_snoc {A : Type} (l : list A) (x y : A) :
  <[length l := y]> (l ++ [x]) = l ++ [y].
Proof.
  rewrite insert_app_r_alt by done. by rewrite Nat.sub_diag.
Qed.

Lemma Forall_dict_set {K V : Type} `{EqDecision K} (P : K * V → Prop)
    (k : K) (v : V) (d : list (K * V)) :
  Forall P d → P (k, v) → Forall P (dict_set k v d).
Proof.
  intros Hd Hkv. induction Hd as [|[k' v'] d Hx Hd IH]; simpl.
  - by repeat constructor.
  - case_decide; by constructor.
Qed.

Lemma Forall_set_add {K : Type} `{EqDecision K} (P : K → Prop) (x : K) (s : list K) :
  Forall P s → P x → Forall P (set_add x s).
Proof.
  intros Hs Hx. unfold set_add. case_decide; [done |].
  apply Forall_app. split; [done |]. by repeat constructor.
Qed.

Lemma Forall_filter_keep {A : Type} (P : A → Prop) (Q : A → Prop)
    `{∀ x, Decision (Q x)} (l : list A) :
  Forall P l → Forall P (filter Q l).
Proof.
  intros Hl. rewrite Forall_forall in *. intros x Hx.
  apply list_elem_of_filter in Hx as [_ Hx]. by apply Hl.
Qed.

Section New.
Context `{!fcdr_defs} `{!measurement_equation}.

Lemma register_new (w : World) (e : Effect.t) :
  well_formed w →
  ∃ w', register (length (effect_objects w))
          (with_effect_objects (effect_objects w ++ [e]) w) = Some w' ∧
    registered w' (length (effect_objects w)) ∧
    well_formed w'.
Proof.
  intros Hwf. pose proof Hwf as (Hroot & Hdicts & Hsets). unfold register.
  cbn [effect_objects with_effect_objects dict_objects set_objects _all_effects].
  rewrite lookup_snoc. cbn [mbind option_bind].
  destruct (lookup_lt_is_Some_2 _ _ Hroot) as [d Hd]. rewrite Hd.
  cbn [mbind option_bind].
  assert (Hd_bound : Forall (λ kv : option Symbol * ref,
                       kv.2 < length (set_objects w)) d).
  { rewrite Forall_lookup in Hdicts. by apply (Hdicts _ _ Hd). }
  assert (Hnew : ∀ members : list ref,
    Forall (λ a, a < length (effect_objects w)) members →
    Forall (λ a, a < length (effect_objects w ++ [e]))
           (set_add (length (effect_objects w)) members)).
  { intros members Hm. apply Forall_set_add.
    - eapply Forall_impl; [exact Hm |]. intros a Ha. simpl in *.
      rewrite length_app. simpl. lia.
    - rewrite length_app. simpl. lia. }
  assert (Hold : Forall (Forall (λ a, a < length (effect_objects w ++ [e])))
                   (set_objects w)).
  { eapply Forall_impl; [exact Hsets |]. intros members Hm.
    eapply Forall_impl; [exact Hm |]. intros a Ha. simpl in *.
    rewrite length_app. simpl. lia. }
  destruct (dict_get (Effect.parameter e) d) as [s|] eqn:Hget.
  - rewrite bool_decide_true by done.
    cbn [effect_objects with_effect_objects dict_objects set_objects _all_effects].
    rewrite Hd. cbn [mbind option_bind]. rewrite Hget. cbn [mbind option_bind].
    assert (Hs : s < length (set_objects w)).
    { rewrite Forall_forall in Hd_bound.
      by apply (Hd_bound _ (dict_get_elem_of _ _ _ Hget)). }
    destruct (lookup_lt_is_Some_2 _ _ Hs) as [members Hm]. rewrite Hm.
    cbn [mbind option_bind]. eexists. split; [done |]. split.
    + exists e, d, s, (set_add (length (effect_objects w)) members).
      cbn [effect_objects with_effect_objects with_set_objects dict_objects
           set_objects _all_effects].
      rewrite lookup_snoc, Hd, Hget, list_lookup_insert_eq by done.
      repeat split. apply elem_of_set_add.
    + split; [done |]. split.
      * cbn [dict_objects set_objects with_set_objects with_effect_objects].
        eapply Forall_impl; [exact Hdicts |]. intros entries He.
        eapply Forall_impl; [exact He |]. intros kv Hkv. simpl in *.
        by rewrite length_insert.
      * cbn [effect_objects set_objects with_set_objects with_effect_objects].
        apply Forall_insert; [done |]. apply Hnew.
        rewrite Forall_lookup in Hsets. by apply (Hsets _ _ Hm).
  - rewrite bool_decide_false by (by intros [? ?]).
    cbn [effect_objects with_effect_objects with_set_objects with_dict_objects
         dict_objects set_objects _all_effects].
    rewrite list_lookup_insert_eq by done. cbn [mbind option_bind].
    rewrite dict_get_set. cbn [mbind option_bind].
    rewrite lookup_snoc. cbn [mbind option_bind].
    eexists. split; [done |]. split.
    + exists e, (dict_set (Effect.parameter e) (length (set_objects w)) d),
        (length (set_objects w)), (set_add (length (effect_objects w)) []).
      cbn [effect_objects with_effect_objects with_set_objects with_dict_objects
           dict_objects set_objects _all_effects].
      rewrite lookup_snoc, list_lookup_insert_eq, dict_get_set by done.
      rewrite list_lookup_insert_eq by (rewrite length_app; simpl; lia).
      repeat split. apply elem_of_set_add.
    + assert (Hgrow : ∀ entries : list (option Symbol * ref),
        Forall (λ kv, kv.2 < length (set_objects w)) entries →
        Forall (λ kv, kv.2 <
                  length (<[length (set_objects w) :=
                              set_add (length (effect_objects w)) []]>
                            (set_objects w ++ [[]]))) entries).
      { intros entries He. eapply Forall_impl; [exact He |].
        intros kv Hkv. simpl in *. rewrite length_insert, length_app.
        simpl. lia. }
      split; [| split].
      * cbn [dict_objects with_set_objects with_dict_objects with_effect_objects
             _all_effects]. by rewrite length_insert.
      * cbn [dict_objects set_objects with_set_objects with_dict_objects
             with_effect_objects].
        apply Forall_insert.
        -- eapply Forall_impl; [exact Hdicts |]. apply Hgrow.
        -- apply Forall_dict_set; [by apply Hgrow |]. cbn [snd].
           rewrite length_insert, length_app. simpl. lia.
      * cbn [effect_objects set_objects with_set_objects with_dict_objects
             with_effect_objects].
        apply Forall_insert.
        -- apply Forall_app. split; [done |]. by repeat constructor.
        -- apply Hnew. constructor.
Qed.

End New.


(** Well-formedness is an invariant of construction: it holds when the
    class body has run, and every call of [Effect], completed or not, keeps
    it. *)
Lemma World_initial_well_formed : well_formed World_initial.
Proof. split; [simpl; lia |]. split; by repeat constructor. Qed.

Lemma Effect_new_well_formed `{!fcdr_defs} `{!measurement_equation}
    (kwargs : list Effect.kwarg) (w w' : World) (r : result ref) :
  well_formed w → Effect_new kwargs w = Some (w', r) → well_formed w'.
Proof.
  intros Hwf. unfold Effect_new, Effect__init__.
  cbn [effect_objects with_effect_objects].
  rewrite lookup_snoc. cbn [mbind option_bind].
  destruct (Effect.init_attributes kwargs Effect.class_defaults)
    as [e' [[]|x]]; rewrite insert_snoc.
  - replace (with_effect_objects (effect_objects w ++ [e'])
               (with_effect_objects (effect_objects w ++ [Effect.class_defaults]) w))
      with (with_effect_objects (effect_objects w ++ [e']) w) by done.
    destruct (register_new w e' Hwf) as (w'' & -> & _ & Hwf'').
    cbn [mbind option_bind fst snd]. by intros [= <- _].
  - cbn [mbind option_bind fst snd]. intros [= <- _].
    by apply (well_formed_new_effect w e').
Qed.

Lemma catalogue_world_well_formed : well_formed catalogue_world.
Proof. apply (bool_decide_unpack _). by vm_compute. Qed.


(** The three failing constructions on the catalogue, and one that
    completes. *)
Example construction_outcomes :
  snd <$> @Effect_new sample_defs sample_meq misspelt_type_kwargs catalogue_world =
    Some (Raise (ValueError
      "Unknown correlation type: gaussian. Expected one of: undefined, random, rectangular_absolute, triangular_relative, truncated_gaussian_relative, repeated_rectangles, repeated_truncated_gaussians")) ∧
  snd <$> @Effect_new sample_defs sample_meq textual_scale_kwargs catalogue_world =
    Some (Raise (TypeError "unsupported format string passed to type.__format__")) ∧
  snd <$> @Effect_new sample_defs sample_meq unknown_keyword_kwargs catalogue_world =
    Some (Raise (AttributeError "type object 'Effect' has no attribute 'colour'")) ∧
  snd <$> @Effect_new sample_defs sample_meq electronics_kwargs catalogue_world =
    Some (Ok 6).
Proof. by vm_compute. Qed.

Example catalogue_registry :
  dict_objects catalogue_world =
    [[(Some "C_E", 0); (Some "νstar", 1); (Some "O_TPRT", 2); (Some "a_2", 3);
      (Some "O_Re", 4)]] ∧
  set_objects catalogue_world = [[0]; [1]; [2]; [3]; [4; 5]] ∧
  Exists rejected misspelt_type_kwargs ∧
  Exists rejected textual_scale_kwargs ∧
  Exists rejected unknown_keyword_kwargs.
Proof.
  split; [by vm_compute |]. split; [by vm_compute |].
  split; [| split].
  - do 2 apply Exists_cons_tl. apply Exists_cons_hd. simpl.
    do 2 apply Exists_cons_tl. apply Exists_cons_hd.
    intros Hin. apply (bool_decide_pack _) in Hin. by vm_compute in Hin.
  - do 2 apply Exists_cons_tl. apply Exists_cons_hd. simpl.
    apply Exists_cons_tl. by apply Exists_cons_hd.
  - apply Exists_cons_tl. by apply Exists_cons_hd.
Qed.

(** ** Deep copies of the registry *)

Lemma copies_ok_grows (w0 w w' : World) (m : Memo) :
  copies_ok w0 w m → preserves w w' → copies_ok w0 w' m.
Proof.
  intros (Hp & He & Hs) Hp'. pose proof Hp' as (Hge & Hgs & _).
  split; [by eapply preserves_trans |]. split.
  - intros a a' Ha. destruct (He a a' Ha) as (Hfresh & e & He0 & He1).
    split; [done |]. exists e. split; [done |]. by apply Hge.
  - intros s s' Hs'. destruct (Hs s s' Hs') as (Hfresh & (ms & Hms & Hall) & es & Hv0 & Hv).
    split; [done |]. split.
    + exists ms. split; [by apply Hgs | done].
    + exists es. split; [done |]. by eapply set_view_preserved.
Qed.

Lemma deepcopy_effect_spec (w0 w : World) (m : Memo) (a : ref) :
  copies_ok w0 w m → well_formed w → a < length (effect_objects w0) →
  ∃ w' m' a', deepcopy_effect a (w, m) = Some (w', m', a') ∧
    copies_ok w0 w' m' ∧ well_formed w' ∧ preserves w w' ∧
    set_objects w' = set_objects w ∧ dict_objects w' = dict_objects w ∧
    length (effect_objects w0) ≤ a' ∧
    effect_objects w' !! a' = effect_objects w0 !! a.
Proof.
  intros Hok Hwf Ha. pose proof Hok as (Hp & He & Hs).
  unfold deepcopy_effect. cbn [fst snd].
  destruct (memo_effects m !! a) as [a'|] eqn:Hmemo.
  - destruct (He a a' Hmemo) as (Hfresh & e & He0 & He1).
    exists w, m, a'. split; [done |]. split; [done |]. split; [done |].
    split; [apply preserves_refl |]. split; [done |]. split; [done |].
    split; [lia |]. by rewrite He0, He1.
  - destruct (lookup_lt_is_Some_2 _ _ Ha) as [e He0].
    pose proof Hp as (Hge & _). rewrite (Hge _ _ He0). cbn [mbind option_bind].
    eexists _, _, _. split; [done |].
    pose proof (preserves_new_effect w e) as Hp'.
    pose proof (grows_length _ _ Hge) as Hlen.
    split; [| split; [by apply well_formed_new_effect |
              split; [done | split; [done | split; [done | split; [done |]]]]]].
    + destruct (copies_ok_grows w0 w _ m Hok Hp') as (Hq & He' & Hs').
      split; [done |]. split; [| done].
      cbn [memo_effects]. intros b b' Hb.
      destruct (decide (a = b)) as [<- | Hne].
      * rewrite lookup_insert_eq in Hb. injection Hb as <-.
        split; [done |]. exists e. split; [done |].
        cbn [effect_objects with_effect_objects]. apply lookup_snoc.
      * rewrite lookup_insert_ne in Hb by done. by apply He'.
    + cbn [effect_objects with_effect_objects]. by rewrite lookup_snoc, He0.
Qed.

Lemma deepcopy_members_spec (w0 : World) (members : list ref) :
  ∀ (w : World) (m : Memo),
  copies_ok w0 w m → well_formed w →
  Forall (λ a, a < length (effect_objects w0)) members →
  ∃ w' m' members', deepcopy_members members (w, m) = Some (w', m', members') ∧
    copies_ok w0 w' m' ∧ well_formed w' ∧ preserves w w' ∧
    set_objects w' = set_objects w ∧ dict_objects w' = dict_objects w ∧
    Forall (λ a', length (effect_objects w0) ≤ a') members' ∧
    ∃ es, mapM (λ a, effect_objects w0 !! a) members = Some es ∧
          mapM (λ a, effect_objects w' !! a) members' = Some es.
Proof.
  induction members as [|a members IH]; intros w m Hok Hwf Hall.
  - exists w, m, []. split; [done |]. split; [done |]. split; [done |].
    split; [apply preserves_refl |]. split; [done |]. split; [done |].
    split; [constructor |]. by exists [].
  - inversion Hall as [|? ? Ha Hall']; subst.
    destruct (deepcopy_effect_spec w0 w m a Hok Hwf Ha)
      as (w1 & m1 & a' & Hrun1 & Hok1 & Hwf1 & Hp1 & Hs1 & Hd1 & Hfresh & Hlook).
    destruct (IH w1 m1 Hok1 Hwf1 Hall')
      as (w2 & m2 & members' & Hrun2 & Hok2 & Hwf2 & Hp2 & Hs2 & Hd2 & Hfresh2
          & es & Hes0 & Hes2).
    exists w2, m2, (a' :: members').
    split; [cbn [deepcopy_members]; rewrite Hrun1; cbn [mbind option_bind fst snd];
            by rewrite Hrun2 |].
    split; [done |]. split; [done |].
    split; [by eapply preserves_trans |].
    split; [congruence |]. split; [congruence |].
    split; [by constructor |].
    destruct (lookup_lt_is_Some_2 _ _ Ha) as [e He]. rewrite He in Hlook.
    exists (e :: es). cbn [mapM]. rewrite He, Hes0.
    pose proof Hp2 as (Hge & _). rewrite (Hge _ _ Hlook), Hes2. done.
Qed.

Lemma well_formed_new_set (w : World) (members : list ref) :
  well_formed w → Forall (λ a, a < length (effect_objects w)) members →
  well_formed (with_set_objects (set_objects w ++ [members]) w).
Proof.
  intros (Hroot & Hdicts & Hsets) Hm. split; [done |]. split.
  - cbn [dict_objects set_objects with_set_objects].
    eapply Forall_impl; [exact Hdicts |]. intros entries He.
    eapply Forall_impl; [exact He |]. intros kv Hkv. simpl in *.
    rewrite length_app. simpl. lia.
  - cbn [set_objects effect_objects with_set_objects].
    apply Forall_app. split; [done |]. by constructor.
Qed.

Lemma preserves_new_set (w : World) (members : list ref) :
  preserves w (with_set_objects (set_objects w ++ [members]) w).
Proof. repeat split; try apply grows_refl. apply grows_app. Qed.

Lemma mapM_lookup_bound {A : Type} (l : list A) (refs : list ref) (k : list A) :
  mapM (λ a, l !! a) refs = Some k → Forall (λ a, a < length l) refs.
Proof.
  rewrite mapM_Some. intros H2. induction H2 as [|a y refs k Hy _ IH];
    constructor; [| done]. by apply lookup_lt_Some in Hy.
Qed.

Lemma deepcopy_set_spec (w0 w : World) (m : Memo) (s : ref) :
  well_formed w0 → copies_ok w0 w m → well_formed w →
  s < length (set_objects w0) →
  ∃ w' m' s', deepcopy_set s (w, m) = Some (w', m', s') ∧
    copies_ok w0 w' m' ∧ well_formed w' ∧ preserves w w' ∧
    dict_objects w' = dict_objects w ∧
    length (set_objects w0) ≤ s' ∧
    (∃ members', set_objects w' !! s' = Some members' ∧
       Forall (λ a, length (effect_objects w0) ≤ a) members') ∧
    ∃ es, set_view w0 s = Some es ∧ set_view w' s' = Some es.
Proof.
  intros Hwf0 Hok Hwf Hs. pose proof Hok as (Hp & He & Hsets).
  unfold deepcopy_set. cbn [fst snd].
  destruct (memo_sets m !! s) as [s'|] eqn:Hmemo.
  - destruct (Hsets s s' Hmemo) as (Hfresh & Hmem & Hview).
    exists w, m, s'. split; [done |]. split; [done |]. split; [done |].
    split; [apply preserves_refl |]. done.
  - destruct (lookup_lt_is_Some_2 _ _ Hs) as [members Hmembers].
    pose proof Hp as (_ & Hgs & _). rewrite (Hgs _ _ Hmembers).
    cbn [mbind option_bind].
    assert (Hbound : Forall (λ a, a < length (effect_objects w0)) members).
    { destruct Hwf0 as (_ & _ & Hsets0). rewrite Forall_lookup in Hsets0.
      by apply (Hsets0 _ _ Hmembers). }
    destruct (deepcopy_members_spec w0 members w m Hok Hwf Hbound)
      as (w1 & m1 & members' & Hrun & Hok1 & Hwf1 & Hp1 & Hs1 & Hd1 & Hfresh
          & es & Hes0 & Hes1).
    rewrite Hrun. cbn [mbind option_bind fst snd].
    eexists _, _, _. split; [done |].
    pose proof (preserves_new_set w1 members') as Hp2.
    pose proof (mapM_lookup_bound _ _ _ Hes1) as Hbound'.
    assert (Hlen : length (set_objects w0) ≤ length (set_objects w1)).
    { rewrite Hs1. apply grows_length. by destruct Hp as (_ & ? & _). }
    assert (Hview0 : set_view w0 s = Some es).
    { unfold set_view. by rewrite Hmembers. }
    assert (Hview1 : set_view (with_set_objects (set_objects w1 ++ [members']) w1)
                       (length (set_objects w1)) = Some es).
    { unfold set_view. cbn [set_objects effect_objects with_set_objects].
      by rewrite lookup_snoc. }
    split; [| split; [by apply well_formed_new_set |
              split; [by eapply preserves_trans |
              split; [done | split; [done | split]]]]].
    + destruct (copies_ok_grows w0 w1 _ m1 Hok1 Hp2) as (Hq & He' & Hs').
      split; [done |]. split; [done |].
      cbn [memo_sets]. intros t t' Ht.
      destruct (decide (s = t)) as [<- | Hne].
      * rewrite lookup_insert_eq in Ht. injection Ht as <-.
        split; [done |]. split; [| by exists es].
        exists members'. split; [| done].
        cbn [set_objects with_set_objects]. apply lookup_snoc.
      * rewrite lookup_insert_ne in Ht by done. by apply Hs'.
    + exists members'. split; [| done].
      cbn [set_objects with_set_objects]. apply lookup_snoc.
    + by exists es.
Qed.


Lemma fresh_set_preserved (w0 w w' : World) (s : ref) :
  preserves w w' → fresh_set w0 w s → fresh_set w0 w' s.
Proof.
  intros (_ & Hgs & _) (Hs & members & Hm & Hall). split; [done |].
  exists members. split; [by apply Hgs | done].
Qed.

Lemma deepcopy_items_spec (w0 : World) (entries : list (option Symbol * ref)) :
  well_formed w0 →
  ∀ (w : World) (m : Memo),
  copies_ok w0 w m → well_formed w →
  Forall (λ kv, kv.2 < length (set_objects w0)) entries →
  ∃ w' m' entries', deepcopy_items entries (w, m) = Some (w', m', entries') ∧
    copies_ok w0 w' m' ∧ well_formed w' ∧ preserves w w' ∧
    dict_objects w' = dict_objects w ∧
    Forall (λ kv, fresh_set w0 w' kv.2) entries' ∧
    ∃ v, mapM (item_view w0) entries = Some v ∧
         mapM (item_view w') entries' = Some v.
Proof.
  intros Hwf0. induction entries as [|[k s] entries IH]; intros w m Hok Hwf Hall.
  - exists w, m, []. split; [done |]. split; [done |]. split; [done |].
    split; [apply preserves_refl |]. split; [done |].
    split; [constructor |]. by exists [].
  - inversion Hall as [|? ? Hs Hall']; subst. cbn [snd] in Hs.
    destruct (deepcopy_set_spec w0 w m s Hwf0 Hok Hwf Hs)
      as (w1 & m1 & s' & Hrun1 & Hok1 & Hwf1 & Hp1 & Hd1 & Hfresh & Hmem
          & es & Hv0 & Hv1).
    destruct (IH w1 m1 Hok1 Hwf1 Hall')
      as (w2 & m2 & entries' & Hrun2 & Hok2 & Hwf2 & Hp2 & Hd2 & Hfresh2
          & v & Hvs0 & Hvs2).
    exists w2, m2, ((k, s') :: entries').
    split; [cbn [deepcopy_items]; rewrite Hrun1; cbn [mbind option_bind fst snd];
            by rewrite Hrun2 |].
    split; [done |]. split; [done |].
    split; [by eapply preserves_trans |].
    split; [congruence |]. split.
    + constructor; [| done]. cbn [snd].
      apply (fresh_set_preserved w0 w1 w2); [done |]. by split.
    + assert (Hi0 : item_view w0 (k, s) = Some (k, es)).
      { unfold item_view. cbn [fst snd]. by rewrite Hv0. }
      assert (Hi2 : item_view w2 (k, s') = Some (k, es)).
      { unfold item_view. cbn [fst snd].
        by rewrite (set_view_preserved w1 w2 s' es Hp2 Hv1). }
      exists ((k, es) :: v). cbn [mapM]. by rewrite Hi0, Hi2, Hvs0, Hvs2.
Qed.

Lemma effects_spec (w : World) :
  well_formed w →
  ∃ w1 registry entries',
    effects w = Some (w1, length (dict_objects w)) ∧
    preserves w w1 ∧ well_formed w1 ∧
    dict_view w (_all_effects w) = Some registry ∧
    dict_view w1 (length (dict_objects w)) = Some registry ∧
    dict_objects w1 !! length (dict_objects w) = Some entries' ∧
    Forall (λ kv, fresh_set w w1 kv.2) entries'.
Proof.
  intros Hwf. pose proof Hwf as (Hroot & Hdicts & Hsets).
  unfold effects, deepcopy_dict.
  destruct (lookup_lt_is_Some_2 _ _ Hroot) as [entries Hentries].
  rewrite Hentries. cbn [mbind option_bind].
  set (wi := with_dict_objects (dict_objects w ++ [[]]) w).
  set (m0 := {| memo_effects := ∅; memo_sets := ∅ |}).
  assert (Hpi : preserves w wi).
  { repeat split; try apply grows_refl. apply grows_app. }
  assert (Hoki : copies_ok w wi m0).
  { split; [done |]. split; intros a a' Ha; cbn in Ha;
      by rewrite lookup_empty in Ha. }
  assert (Hwfi : well_formed wi).
  { split; [| split; [| done]].
    - cbn [wi dict_objects with_dict_objects _all_effects].
      rewrite length_app. simpl. lia.
    - cbn [wi dict_objects set_objects with_dict_objects].
      apply Forall_app. split; [done |]. by repeat constructor. }
  assert (Hbound : Forall (λ kv : option Symbol * ref,
                     kv.2 < length (set_objects w)) entries).
  { rewrite Forall_lookup in Hdicts. by apply (Hdicts _ _ Hentries). }
  destruct (deepcopy_items_spec w entries Hwf wi m0 Hoki Hwfi Hbound)
    as (w' & m' & entries' & Hrun & Hok' & Hwf' & Hp' & Hd' & Hfresh
        & v & Hv0 & Hv').
  rewrite Hrun. cbn [mbind option_bind fst snd].
  cbn [wi dict_objects with_dict_objects] in Hd'.
  rewrite Hd', insert_snoc.
  set (w1 := with_dict_objects (dict_objects w ++ [entries']) w').
  assert (Hp1 : preserves w w1).
  { destruct Hp' as (He & Hs & _ & Hr). destruct Hpi as (Hei & Hsi & _ & Hri).
    split; [exact (grows_trans _ _ _ Hei He) |].
    split; [exact (grows_trans _ _ _ Hsi Hs) |].
    split; [apply grows_app |].
    cbn [w1 _all_effects with_dict_objects]. congruence. }
  assert (Hfresh1 : Forall (λ kv : option Symbol * ref, fresh_set w w1 kv.2)
                      entries') by done.
  exists w1, v, entries'. split; [done |]. split; [done |]. split.
  { destruct Hwf' as (Hroot' & Hdicts' & Hsets').
    split; [| split; [| done]].
    - cbn [w1 dict_objects with_dict_objects _all_effects].
      destruct Hp' as (_ & _ & _ & ->). cbn [wi _all_effects with_dict_objects].
      rewrite length_app. simpl. lia.
    - cbn [w1 dict_objects set_objects with_dict_objects].
      rewrite Hd' in Hdicts'. apply Forall_app in Hdicts' as [Hold _].
      apply Forall_app. split; [done |]. constructor; [| done].
      eapply Forall_impl; [exact Hfresh |].
      intros kv (_ & members & Hm & _). by apply lookup_lt_Some in Hm. }
  split.
  { unfold dict_view. by rewrite Hentries. }
  split; [| split; [| done]].
  - unfold dict_view. cbn [w1 dict_objects with_dict_objects].
    by rewrite lookup_snoc.
  - cbn [w1 dict_objects with_dict_objects]. apply lookup_snoc.
Qed.

Lemma mutate_well_formed (m : mutation) (w w' : World) :
  well_formed w → mutate m w = Some w' → well_formed w'.
Proof.
  intros (Hroot & Hdicts & Hsets) Hrun.
  destruct m as [d k s | d k | d k | s a | s a]; cbn [mutate] in Hrun.
  - destruct (dict_objects w !! d) as [entries|] eqn:Hd; [| done].
    destruct (set_objects w !! s) as [members|] eqn:Hs; [| done].
    cbn [mbind option_bind] in Hrun. injection Hrun as <-.
    split; [| split; [| done]].
    + cbn [dict_objects with_dict_objects _all_effects]. by rewrite length_insert.
    + cbn [dict_objects set_objects with_dict_objects].
      apply Forall_insert; [done |]. apply Forall_dict_set.
      * rewrite Forall_lookup in Hdicts. by apply (Hdicts _ _ Hd).
      * cbn [snd]. by apply lookup_lt_Some in Hs.
  - destruct (dict_objects w !! d) as [entries|] eqn:Hd; [| done].
    cbn [mbind option_bind] in Hrun. injection Hrun as <-.
    assert (Hgrow : ∀ entries0 : list (option Symbol * ref),
      Forall (λ kv, kv.2 < length (set_objects w)) entries0 →
      Forall (λ kv, kv.2 < length (set_objects w ++ [[]])) entries0).
    { intros entries0 He. eapply Forall_impl; [exact He |].
      intros kv Hkv. simpl in *. rewrite length_app. simpl. lia. }
    split; [| split].
    + cbn [dict_objects with_dict_objects with_set_objects _all_effects].
      by rewrite length_insert.
    + cbn [dict_objects set_objects with_dict_objects with_set_objects].
      apply Forall_insert.
      * eapply Forall_impl; [exact Hdicts |]. apply Hgrow.
      * apply Forall_dict_set.
        -- apply Hgrow. rewrite Forall_lookup in Hdicts. by apply (Hdicts _ _ Hd).
        -- cbn [snd]. rewrite length_app. simpl. lia.
    + cbn [effect_objects set_objects with_dict_objects with_set_objects].
      apply Forall_app. split; [done |]. by repeat constructor.
  - destruct (dict_objects w !! d) as [entries|] eqn:Hd; [| done].
    cbn [mbind option_bind] in Hrun. injection Hrun as <-.
    split; [| split; [| done]].
    + cbn [dict_objects with_dict_objects _all_effects]. by rewrite length_insert.
    + cbn [dict_objects set_objects with_dict_objects].
      apply Forall_insert; [done |]. unfold dict_del. apply Forall_filter_keep.
      rewrite Forall_lookup in Hdicts. by apply (Hdicts _ _ Hd).
  - destruct (set_objects w !! s) as [members|] eqn:Hs; [| done].
    destruct (effect_objects w !! a) as [e|] eqn:Ha; [| done].
    cbn [mbind option_bind] in Hrun. injection Hrun as <-.
    split; [done |]. split.
    + cbn [dict_objects set_objects with_set_objects].
      eapply Forall_impl; [exact Hdicts |]. intros entries He.
      eapply Forall_impl; [exact He |]. intros kv Hkv. simpl in *.
      by rewrite length_insert.
    + cbn [effect_objects set_objects with_set_objects].
      apply Forall_insert; [done |]. apply Forall_set_add.
      * rewrite Forall_lookup in Hsets. by apply (Hsets _ _ Hs).
      * by apply lookup_lt_Some in Ha.
  - destruct (set_objects w !! s) as [members|] eqn:Hs; [| done].
    cbn [mbind option_bind] in Hrun. injection Hrun as <-.
    split; [done |]. split.
    + cbn [dict_objects set_objects with_set_objects].
      eapply Forall_impl; [exact Hdicts |]. intros entries He.
      eapply Forall_impl; [exact He |]. intros kv Hkv. simpl in *.
      by rewrite length_insert.
    + cbn [effect_objects set_objects with_set_objects].
      apply Forall_insert; [done |]. unfold set_discard.
      apply Forall_filter_keep.
      rewrite Forall_lookup in Hsets. by apply (Hsets _ _ Hs).
Qed.

Lemma mutate_preserves (m : mutation) (w0 w w' : World) :
  preserves w0 w → writes_outside w0 m → mutate m w = Some w' →
  preserves w0 w'.
Proof.
  intros (He & Hs & Hd & Hr) Hout Hrun.
  destruct m as [d k s | d k | d k | s a | s a];
    cbn [mutate writes_outside] in Hrun, Hout.
  - destruct (dict_objects w !! d) as [entries|]; [| done].
    destruct (set_objects w !! s) as [members|]; [| done].
    cbn [mbind option_bind] in Hrun. injection Hrun as <-.
    split; [done |]. split; [done |]. split; [| done].
    by apply grows_insert_outside.
  - destruct (dict_objects w !! d) as [entries|]; [| done].
    cbn [mbind option_bind] in Hrun. injection Hrun as <-.
    split; [done |]. split; [| split; [| done]].
    + eapply grows_trans; [exact Hs |]. apply grows_app.
    + by apply grows_insert_outside.
  - destruct (dict_objects w !! d) as [entries|]; [| done].
    cbn [mbind option_bind] in Hrun. injection Hrun as <-.
    split; [done |]. split; [done |]. split; [| done].
    by apply grows_insert_outside.
  - destruct (set_objects w !! s) as [members|]; [| done].
    destruct (effect_objects w !! a) as [e|]; [| done].
    cbn [mbind option_bind] in Hrun. injection Hrun as <-.
    split; [done |]. split; [| done]. by apply grows_insert_outside.
  - destruct (set_objects w !! s) as [members|]; [| done].
    cbn [mbind option_bind] in Hrun. injection Hrun as <-.
    split; [done |]. split; [| done]. by apply grows_insert_outside.
Qed.

Lemma mutate_all_spec (w0 : World) (ms : list mutation) :
  Forall (writes_outside w0) ms →
  ∀ w w', preserves w0 w → well_formed w → mutate_all ms w = Some w' →
  preserves w0 w' ∧ well_formed w'.
Proof.
  induction 1 as [|m ms Hm _ IH]; intros w w' Hp Hwf Hrun; simpl in Hrun.
  - by injection Hrun as <-.
  - destruct (mutate m w) as [w1|] eqn:Hm1; [| done].
    cbn [mbind option_bind] in Hrun.
    apply (IH w1 w'); [| | done].
    + by apply (mutate_preserves m w0 w w1).
    + by apply (mutate_well_formed m w w1).
Qed.

Lemma mutate_dict_length (m : mutation) (w w' : World) :
  mutate m w = Some w' → length (dict_objects w') = length (dict_objects w).
Proof.
  intros Hrun.
  destruct m as [d k s | d k | d k | s a | s a]; cbn [mutate] in Hrun.
  - destruct (dict_objects w !! d) as [entries|]; [| done].
    destruct (set_objects w !! s) as [members|]; [| done].
    cbn [mbind option_bind] in Hrun. injection Hrun as <-.
    cbn [dict_objects with_dict_objects]. apply length_insert.
  - destruct (dict_objects w !! d) as [entries|]; [| done].
    cbn [mbind option_bind] in Hrun. injection Hrun as <-.
    cbn [dict_objects with_dict_objects with_set_objects]. apply length_insert.
  - destruct (dict_objects w !! d) as [entries|]; [| done].
    cbn [mbind option_bind] in Hrun. injection Hrun as <-.
    cbn [dict_objects with_dict_objects]. apply length_insert.
  - destruct (set_objects w !! s) as [members|]; [| done].
    destruct (effect_objects w !! a) as [e|]; [| done].
    cbn [mbind option_bind] in Hrun. by injection Hrun as <-.
  - destruct (set_objects w !! s) as [members|]; [| done].
    cbn [mbind option_bind] in Hrun. by injection Hrun as <-.
Qed.

Lemma mutate_all_dict_length (ms : list mutation) :
  ∀ w w', mutate_all ms w = Some w' →
  length (dict_objects w') = length (dict_objects w).
Proof.
  induction ms as [|m ms IH]; intros w w' Hrun; simpl in Hrun.
  - by injection Hrun as <-.
  - destruct (mutate m w) as [w1|] eqn:Hm1; [| done].
    cbn [mbind option_bind] in Hrun.
    rewrite (IH w1 w' Hrun). by apply (mutate_dict_length m).
Qed.

(** C7. [effects()] returns a deep copy. From a state with no dangling
    reference it returns a new dict that shows, key by key, the effects of
    the registry, and that shares no dict, set or effect with the state of
    the call. Whatever entries a caller then adds to or removes from the
    containers created since (the snapshot's dict and sets among them), every
    object of the live registry is as it was, the registry shows the same
    effects, and a second call of [effects()] returns another dict showing
    them still. *)
Theorem effects_snapshot_is_isolated (w : World) (ms : list mutation) :
  well_formed w →
  Forall (writes_outside w) ms →
  ∃ w1 snapshot registry,
    effects w = Some (w1, snapshot) ∧
    dict_view w (_all_effects w) = Some registry ∧
    dict_view w1 snapshot = Some registry ∧
    snapshot_is_deep w w1 snapshot ∧
    ∀ w2, mutate_all ms w1 = Some w2 →
      preserves w w2 ∧
      dict_view w2 (_all_effects w2) = Some registry ∧
      ∃ w3 snapshot', effects w2 = Some (w3, snapshot') ∧
        snapshot' ≠ snapshot ∧
        dict_view w3 snapshot' = Some registry.
Proof.
  intros Hwf Hout.
  destruct (effects_spec w Hwf)
    as (w1 & registry & entries' & Hrun & Hp1 & Hwf1 & Hv & Hv1 & He' & Hfresh).
  exists w1, (length (dict_objects w)), registry.
  split; [done |]. split; [done |]. split; [done |]. split.
  { split; [lia |]. by exists entries'. }
  intros w2 Hmut.
  destruct (mutate_all_spec w ms Hout w1 w2 Hp1 Hwf1 Hmut) as [Hp2 Hwf2].
  split; [done |].
  assert (Hv2 : dict_view w2 (_all_effects w2) = Some registry).
  { pose proof Hp2 as (_ & _ & _ & Hr). rewrite Hr.
    by apply (dict_view_preserved w). }
  split; [done |].
  destruct (effects_spec w2 Hwf2)
    as (w3 & registry' & entries'' & Hrun' & _ & _ & Hv' & Hv3 & _).
  exists w3, (length (dict_objects w2)). split; [done |]. split.
  - rewrite (mutate_all_dict_length ms w1 w2 Hmut).
    apply lookup_lt_Some in He'. lia.
  - congruence.
Qed.

(** The same for a snapshot of the catalogue and a caller that drops,
    empties, adds and moves entries of it. *)
Lemma effects_snapshot_is_isolated_witness :
  ∃ w1 snapshot registry,
    effects catalogue_world = Some (w1, snapshot) ∧
    dict_view catalogue_world (_all_effects catalogue_world) = Some registry ∧
    dict_view w1 snapshot = Some registry ∧
    snapshot_is_deep catalogue_world w1 snapshot ∧
    ∀ w2, mutate_all snapshot_mutations w1 = Some w2 →
      preserves catalogue_world w2 ∧
      dict_view w2 (_all_effects w2) = Some registry ∧
      ∃ w3 snapshot', effects w2 = Some (w3, snapshot') ∧
        snapshot' ≠ snapshot ∧
        dict_view w3 snapshot' = Some registry.
Proof.
  apply (effects_snapshot_is_isolated catalogue_world snapshot_mutations).
  - apply (bool_decide_unpack _). by vm_compute.
  - apply (bool_decide_unpack _). by vm_compute.
Defined.

(** The snapshot of the catalogue, and the same after the caller's
    mutations: the live dict and sets, objects 0 and 0 to 4, are as before. *)
Example snapshot_of_catalogue :
  (λ wr : World * ref, (dict_objects wr.1, set_objects wr.1, wr.2)) <$>
    effects catalogue_world =
  Some ([[(Some "C_E", 0); (Some "νstar", 1); (Some "O_TPRT", 2);
          (Some "a_2", 3); (Some "O_Re", 4)];
         [(Some "C_E", 5); (Some "νstar", 6); (Some "O_TPRT", 7);
          (Some "a_2", 8); (Some "O_Re", 9)]],
        [[0]; [1]; [2]; [3]; [4; 5]; [6]; [7]; [8]; [9]; [10; 11]],
        1) ∧
  (λ w : World, (dict_objects w, set_objects w)) <$>
    (wr ← effects catalogue_world; mutate_all snapshot_mutations wr.1) =
  Some ([[(Some "C_E", 0); (Some "νstar", 1); (Some "O_TPRT", 2);
          (Some "a_2", 3); (Some "O_Re", 4)];
         [(Some "νstar", 6); (Some "O_TPRT", 7); (Some "a_2", 9);
          (Some "O_Re", 9); (None, 10)]],
        [[0]; [1]; [2]; [3]; [4; 5]; [6]; []; [8]; [9]; [10; 11]; [0]]).
Proof. by vm_compute. Qed.
